(** * gum: the file picker's navigation model and the table's field splitter

    A shallow embedding of two pieces of the repository:

    - [file.go] (package [file]): the bubbletea model of the file picker,
      its [Update] transition function and the directory loader [readDir];
    - the [table] command's [splitAtDelimiter].

    Go's [int] is modelled as [Z] with 64-bit two's-complement wrap-around,
    Go strings as [string] (a sequence of 8-bit bytes), slices as lists, and
    run-time panics (index out of range) as the [Panic] result. *)

From Stdlib Require Import ZArith String Ascii List Bool Lia.
From Stdlib Require Import Permutation Sorted RelationClasses.
Import ListNotations.

Local Open Scope string_scope.
Local Open Scope Z_scope.

(* ===================================================================== *)
(** ** Go's [int] *)
(* ===================================================================== *)

Module goint.

Definition min_int : Z := - 2 ^ 63.
Definition max_int : Z := 2 ^ 63 - 1.

(** Two's-complement wrap-around of a mathematical integer into [int]. *)
Definition wrap (z : Z) : Z := (z + 2 ^ 63) mod 2 ^ 64 - 2 ^ 63.

Definition in_int (z : Z) : Prop := min_int <= z <= max_int.

End goint.

(* ===================================================================== *)
(** ** Results of code that may panic *)
(* ===================================================================== *)

Inductive result (A : Type) : Type :=
| Ok (a : A)
| Panic.
Arguments Ok {A} a.
Arguments Panic {A}.

(** [s[i]] on a slice with an [int] index: out of range panics. *)
Definition index {A : Type} (s : list A) (i : Z) : result A :=
  if (i <? 0) || (Z.of_nat (length s) <=? i) then Panic
  else match nth_error s (Z.to_nat i) with
       | Some a => Ok a
       | None => Panic
       end.

(* ===================================================================== *)
(** ** internal/stack *)
(* ===================================================================== *)

Module stack.

(** Modelled from the spec: the package [internal/stack] ([stack.Stack],
    with [Push], [Pop] and [Length]) is not among the sources.  The spec
    describes the history as an ordered stack, one value pushed per
    descend and one popped per ascend, which restores what was pushed
    last.  A [Stack] is the sequence of pushed integers, most recent
    first.  The Go value is a handle on storage shared by every copy of
    the model, so a push made through a by-value receiver is seen by the
    caller; here the storage is threaded through the model explicitly. *)
Definition Stack : Type := list Z.

Definition Push (i : Z) (s : Stack) : Stack := i :: s.

(** Popping an empty stack panics. *)
Definition Pop (s : Stack) : result (Z * Stack) :=
  match s with
  | [] => Panic
  | i :: s' => Ok (i, s')
  end.

Definition Length (s : Stack) : Z := Z.of_nat (length s).

End stack.

(* ===================================================================== *)
(** ** path/filepath (Unix) *)
(* ===================================================================== *)

Module filepath.

Definition Separator : ascii := "/"%char.

(** The elements of a path: the pieces between separators. *)
Fixpoint elements (s : string) : list string :=
  match s with
  | EmptyString => [""]
  | String c s' =>
      if Ascii.eqb c Separator then "" :: elements s'
      else match elements s' with
           | [] => [String c ""]
           | e :: es => String c e :: es
           end
  end.

Definition rooted (s : string) : bool :=
  match s with
  | String c _ => Ascii.eqb c Separator
  | EmptyString => false
  end.

(** One step of [Clean]'s loop on a path element.  [out] holds the
    elements written so far, last first; [dotdot] counts the leading
    [..] elements below which [..] cannot backtrack. *)
Definition clean_step (isRooted : bool) (st : list string * nat) (e : string)
  : list string * nat :=
  let '(out, dotdot) := st in
  if String.eqb e "" || String.eqb e "." then st
  else if String.eqb e ".." then
    if (dotdot <? length out)%nat then (tl out, dotdot)
    else if isRooted then st
    else (".." :: out, S dotdot)
  else (e :: out, dotdot).

(** [Clean]: drop empty and [.] elements, resolve inner [..] elements,
    drop [..] at the root, and turn the empty path into [.]. *)
Definition Clean (p : string) : string :=
  if String.eqb p "" then "."
  else
    let r := rooted p in
    let '(out, _) := fold_left (clean_step r) (elements p) ([], O) in
    let body := String.concat "/" (rev out) in
    if r then String Separator body
    else if String.eqb body "" then "." else body.

(** [Join]: the elements from the first non-empty one on, separated by
    [Separator], then cleaned; the empty string if all are empty. *)
Fixpoint Join (elem : list string) : string :=
  match elem with
  | [] => ""
  | e :: rest =>
      if String.eqb e "" then Join rest
      else Clean (String.concat "/" elem)
  end.

(** The path up to and including its last separator. *)
Fixpoint upto_last_separator (s : string) : string :=
  match s with
  | EmptyString => ""
  | String c s' =>
      let t := upto_last_separator s' in
      if String.eqb t "" && negb (Ascii.eqb c Separator) then "" else String c t
  end.

(** [Dir]: all but the last element of the path, cleaned. *)
Definition Dir (p : string) : string := Clean (upto_last_separator p).

End filepath.

(* ===================================================================== *)
(** ** A small error monad for panicking code *)
(* ===================================================================== *)

Definition bind {A B : Type} (r : result A) (k : A -> result B) : result B :=
  match r with
  | Ok a => k a
  | Panic => Panic
  end.

Notation "'let*' x ':=' r 'in' k" := (bind r (fun x => k))
  (at level 10, x pattern, r at level 200, k at level 200).

(* ===================================================================== *)
(** ** Package file: the file picker *)
(* ===================================================================== *)

Module file.

Import goint.

Definition marginBottom : Z := 5.

(** What the picker reads of an [os.DirEntry]: its name, its directory
    flag, and the size and mode of its [Info()]. *)
Record DirEntry : Type := {
  Name : string;
  IsDir : bool;
  Size : Z;
  Mode : string
}.

(** The [model] struct; the lipgloss styles, which only [View] reads, are
    left out. *)
Record model : Type := {
  quitting : bool;
  path : string;
  files : list DirEntry;
  selected : Z;
  selectedStack : stack.Stack;
  min : Z;
  max : Z;
  maxStack : stack.Stack;
  minStack : stack.Stack;
  height : Z;
  autoHeight : bool;
  cursor : string
}.

(** Field assignments [m.f = v]. *)
Definition set_quitting (v : bool) (m : model) : model :=
  {| quitting := v; path := path m; files := files m; selected := selected m;
     selectedStack := selectedStack m; min := min m; max := max m;
     maxStack := maxStack m; minStack := minStack m; height := height m;
     autoHeight := autoHeight m; cursor := cursor m |}.
Definition set_path (v : string) (m : model) : model :=
  {| quitting := quitting m; path := v; files := files m; selected := selected m;
     selectedStack := selectedStack m; min := min m; max := max m;
     maxStack := maxStack m; minStack := minStack m; height := height m;
     autoHeight := autoHeight m; cursor := cursor m |}.
Definition set_files (v : list DirEntry) (m : model) : model :=
  {| quitting := quitting m; path := path m; files := v; selected := selected m;
     selectedStack := selectedStack m; min := min m; max := max m;
     maxStack := maxStack m; minStack := minStack m; height := height m;
     autoHeight := autoHeight m; cursor := cursor m |}.
Definition set_selected (v : Z) (m : model) : model :=
  {| quitting := quitting m; path := path m; files := files m; selected := v;
     selectedStack := selectedStack m; min := min m; max := max m;
     maxStack := maxStack m; minStack := minStack m; height := height m;
     autoHeight := autoHeight m; cursor := cursor m |}.
Definition set_min (v : Z) (m : model) : model :=
  {| quitting := quitting m; path := path m; files := files m; selected := selected m;
     selectedStack := selectedStack m; min := v; max := max m;
     maxStack := maxStack m; minStack := minStack m; height := height m;
     autoHeight := autoHeight m; cursor := cursor m |}.
Definition set_max (v : Z) (m : model) : model :=
  {| quitting := quitting m; path := path m; files := files m; selected := selected m;
     selectedStack := selectedStack m; min := min m; max := v;
     maxStack := maxStack m; minStack := minStack m; height := height m;
     autoHeight := autoHeight m; cursor := cursor m |}.
Definition set_height (v : Z) (m : model) : model :=
  {| quitting := quitting m; path := path m; files := files m; selected := selected m;
     selectedStack := selectedStack m; min := min m; max := max m;
     maxStack := maxStack m; minStack := minStack m; height := v;
     autoHeight := autoHeight m; cursor := cursor m |}.
Definition set_stacks (sel mn mx : stack.Stack) (m : model) : model :=
  {| quitting := quitting m; path := path m; files := files m; selected := selected m;
     selectedStack := sel; min := min m; max := max m;
     maxStack := mx; minStack := mn; height := height m;
     autoHeight := autoHeight m; cursor := cursor m |}.

(** [len(m.files)] *)
Definition len (m : model) : Z := Z.of_nat (List.length (files m)).

(** Messages delivered to [Update].  [KeyMsg] carries [msg.String()].
    [OtherMsg] stands for every message type [Update] has no case for,
    among them the [tea.Quit] value that [readDir] returns on failure. *)
Inductive Msg : Type :=
| readDirMsg (entries : list DirEntry)
| WindowSizeMsg (Width Height : Z)
| KeyMsg (key : string)
| OtherMsg.

(** Commands returned by [Update]: [nil], [tea.Quit], or the closure
    built by [readDir path]. *)
Inductive Cmd : Type :=
| CmdNil
| Quit
| readDir (path : string).

Definition Init (m : model) : Cmd := readDir (path m).

(** [pushView] reads the receiver's fields, not its parameters. *)
Definition pushView (m : model) (selected' min' max' : Z) : model :=
  let mn := stack.Push (min m) (minStack m) in
  let mx := stack.Push (max m) (maxStack m) in
  let sel := stack.Push (selected m) (selectedStack m) in
  set_stacks sel mn mx m.

Definition popView (m : model) : result (Z * Z * Z * model) :=
  let* (s, sel) := stack.Pop (selectedStack m) in
  let* (mn, mns) := stack.Pop (minStack m) in
  let* (mx, mxs) := stack.Pop (maxStack m) in
  Ok (s, mn, mx, set_stacks sel mns mxs m).

(** [case k1, k2, ...:] of the switch on [msg.String()] *)
Definition is_key (k : string) (ks : list string) : bool :=
  existsb (String.eqb k) ks.

Definition Update (m : model) (msg : Msg) : result (model * Cmd) :=
  match msg with
  | readDirMsg entries =>
      let m := set_files entries m in
      Ok (m, CmdNil)
  | WindowSizeMsg _ Height =>
      let m := if autoHeight m then set_height (wrap (Height - marginBottom)) m
               else m in
      let m := set_max (height m) m in
      Ok (m, CmdNil)
  | KeyMsg k =>
      if is_key k ["g"] then
        let m := set_selected 0 m in
        let m := set_min 0 m in
        let m := set_max (wrap (height m - 1)) m in
        Ok (m, CmdNil)
      else if is_key k ["G"] then
        let m := set_selected (wrap (len m - 1)) m in
        let m := set_min (wrap (len m - height m)) m in
        let m := set_max (wrap (len m - 1)) m in
        Ok (m, CmdNil)
      else if is_key k ["j"; "down"] then
        let m := set_selected (wrap (selected m + 1)) m in
        let m := if selected m >=? len m
                 then set_selected (wrap (len m - 1)) m else m in
        let m := if selected m >? max m
                 then set_max (wrap (max m + 1)) (set_min (wrap (min m + 1)) m)
                 else m in
        Ok (m, CmdNil)
      else if is_key k ["k"; "up"] then
        let m := set_selected (wrap (selected m - 1)) m in
        let m := if selected m <? 0 then set_selected 0 m else m in
        let m := if selected m <? min m
                 then set_max (wrap (max m - 1)) (set_min (wrap (min m - 1)) m)
                 else m in
        Ok (m, CmdNil)
      else if is_key k ["ctrl+c"; "q"] then
        let m := set_path "" m in
        let m := set_quitting true m in
        Ok (m, Quit)
      else if is_key k ["backspace"; "h"; "left"] then
        let m := set_path (filepath.Dir (path m)) m in
        let* m :=
          if stack.Length (selectedStack m) >? 0 then
            let* (s, mn, mx, m) := popView m in
            Ok (set_max mx (set_min mn (set_selected s m)))
          else
            let m := set_selected 0 m in
            let m := set_min 0 m in
            Ok (set_max (wrap (height m - 1)) m) in
        Ok (m, readDir (path m))
      else if is_key k ["l"; "right"; "enter"] then
        if len m =? 0 then Ok (m, CmdNil)
        else
          let* f := index (files m) (selected m) in
          if negb (IsDir f) then
            if String.eqb k "enter" then
              let m := set_path (filepath.Join [path m; Name f]) m in
              let m := set_quitting true m in
              Ok (m, Quit)
            else Ok (m, CmdNil)
          else
            let m := set_path (filepath.Join [path m; Name f]) m in
            let m := pushView m (selected m) (min m) (max m) in
            let m := set_selected 0 m in
            let m := set_min 0 m in
            let m := set_max (wrap (height m - 1)) m in
            Ok (m, readDir (path m))
      else Ok (m, CmdNil)
  | OtherMsg => Ok (m, CmdNil)
  end.

(** The model returned by the last branch of the [l]/[right]/[enter] case
    when [f] is the directory under the cursor. *)
Definition descend (m : model) (f : DirEntry) : model :=
  set_max (wrap (height m - 1))
    (set_min 0
       (set_selected 0
          (pushView (set_path (filepath.Join [path m; Name f]) m)
             (selected m) (min m) (max m)))).

(** The comparison [readDir] hands to [sort.Slice]: entries of the same kind
    by name ([<] on Go strings compares bytes), else directories first. *)
Definition less (a b : DirEntry) : bool :=
  if Bool.eqb (IsDir a) (IsDir b) then String.ltb (Name a) (Name b)
  else IsDir a.

(** Running the command built by [readDir path].  [ReadDir] is
    [os.ReadDir] (its error case is [None]) and [sort_Slice] is Go's
    [sort.Slice] on elements; on failure the command returns the [tea.Quit]
    value, a message [Update] has no case for. *)
Definition run_readDir
  (sort_Slice : (DirEntry -> DirEntry -> bool) -> list DirEntry -> list DirEntry)
  (ReadDir : string -> option (list DirEntry)) (path : string) : Msg :=
  match ReadDir path with
  | None => OtherMsg
  | Some dirEntries => readDirMsg (sort_Slice less dirEntries)
  end.

(** Feeding a sequence of messages to [Update], dropping the commands. *)
Fixpoint run (m : model) (msgs : list Msg) : result model :=
  match msgs with
  | [] => Ok m
  | msg :: rest => let* (m', _) := Update m msg in run m' rest
  end.

(** The keys of the move-down and move-up events. *)
Definition move_keys : list string := ["j"; "down"; "k"; "up"].

Definition is_move (msg : Msg) : Prop :=
  match msg with
  | KeyMsg k => In k move_keys
  | _ => False
  end.

(** The fields hold Go values: [int]s in range, a slice length that fits
    an [int]. *)
Definition wf (m : model) : Prop :=
  len m <= max_int /\ in_int (selected m) /\ in_int (min m) /\
  in_int (max m) /\ in_int (height m).

(** The ViewState invariant: the cursor is inside the window and is an
    index of the entry list, or 0 when the list is empty. *)
Definition ViewInv (m : model) : Prop :=
  min m <= selected m <= max m /\
  (if len m =? 0 then selected m = 0 else 0 <= selected m < len m).

(** The entry under the cursor. *)
Definition at_cursor (m : model) (f : DirEntry) : Prop :=
  index (files m) (selected m) = Ok f.

End file.

(* ===================================================================== *)
(** ** Package sort *)
(* ===================================================================== *)

Module sort.

(** What [sort.Slice] requires of its [less]: a strict weak ordering. *)
Definition strict_weak {A : Type} (less : A -> A -> bool) : Prop :=
  (forall x, less x x = false) /\
  (forall x y z, less x y = true -> less y z = true -> less x z = true) /\
  (forall x y z, less x y = false -> less y z = false -> less x z = false).

(** No element is less than its predecessor. *)
Definition sorted_by {A : Type} (less : A -> A -> bool) (l : list A) : Prop :=
  Sorted (fun x y => less y x = false) l.

(** The contract of [sort.Slice]: the slice is rearranged, and for a
    strict weak ordering it ends up sorted. *)
Definition Slice_contract {A : Type}
  (sort_Slice : (A -> A -> bool) -> list A -> list A) : Prop :=
  forall less l,
    Permutation l (sort_Slice less l) /\
    (strict_weak less -> sorted_by less (sort_Slice less l)).

(** A sorting routine that meets the contract: insertion sort. *)
Fixpoint insert {A : Type} (less : A -> A -> bool) (x : A) (l : list A) : list A :=
  match l with
  | [] => [x]
  | y :: l' => if less x y then x :: y :: l' else y :: insert less x l'
  end.

Fixpoint insertion_sort {A : Type} (less : A -> A -> bool) (l : list A) : list A :=
  match l with
  | [] => []
  | x :: l' => insert less x (insertion_sort less l')
  end.

End sort.

(* ===================================================================== *)
(** ** Package table: splitting a CSV line *)
(* ===================================================================== *)

Module table.

Definition quote : ascii := "034"%char.
Definition backslash : ascii := "\"%char.
Definition CR : ascii := "013"%char.

(** [s[i]] for [i < len(s)] *)
Definition byte_at (s : string) (i : nat) : ascii :=
  match String.get i s with
  | Some c => c
  | None => zero
  end.

(** [s[lo:hi]] and [s[lo:]] *)
Definition slice (s : string) (lo hi : nat) : string :=
  substring lo (hi - lo) s.
Definition slice_from (s : string) (lo : nat) : string :=
  slice s lo (String.length s).

(** [string(b)] for a byte [b]: the UTF-8 encoding of the code point [b],
    one byte below 128 and two bytes from 128 on. *)
Definition string_of_byte (b : ascii) : string :=
  let n := N_of_ascii b in
  if (n <? 128)%N then String b ""
  else String (ascii_of_N (192 + n / 64))
         (String (ascii_of_N (128 + n mod 64)) "").

(** [strings.ReplaceAll(s, old, new)] for a one-byte [old]. *)
Fixpoint ReplaceAll (s : string) (old : ascii) (new : string) : string :=
  match s with
  | EmptyString => ""
  | String c s' =>
      if Ascii.eqb c old then new ++ ReplaceAll s' old new
      else String c (ReplaceAll s' old new)
  end.

(** [strings.Join] *)
Definition Join (elems : list string) (sep : string) : string :=
  String.concat sep elems.

(** The loop state of [splitAtDelimiter]: [res], [beg], [inString]. *)
Definition split_state : Type := (list string * nat * bool)%type.

(** The loop body at index [i]. *)
Definition split_step (s delim : string) (st : split_state) (i : nat)
  : split_state :=
  let '(res, beg, inString) := st in
  if String.eqb (string_of_byte (byte_at s i)) delim && negb inString then
    ((res ++ [ReplaceAll (slice s beg i) CR ""])%list, S i, inString)
  else if Ascii.eqb (byte_at s i) quote then
    if negb inString then (res, beg, true)
    else if (0 <? i)%nat && negb (Ascii.eqb (byte_at s (i - 1)) backslash)
         then (res, beg, false)
         else st
  else st.

Definition splitAtDelimiter (s delim : string) : list string :=
  let '(res, beg, _) :=
    fold_left (split_step s delim) (seq 0 (String.length s)) ([], O, false) in
  (res ++ [ReplaceAll (slice_from s beg) CR ""])%list.

(** Whether byte [b] occurs in [s]. *)
Fixpoint has_byte (b : ascii) (s : string) : bool :=
  match s with
  | EmptyString => false
  | String c s' => Ascii.eqb c b || has_byte b s'
  end.

End table.

(* ===================================================================== *)
(** ** Sample data *)
(* ===================================================================== *)

Module sample.

Import file.

(** An entry with a name and a directory flag. *)
Definition entry (name : string) (dir : bool) : DirEntry :=
  {| Name := name; IsDir := dir; Size := 0; Mode := "-rw-r--r--" |}.

(** A browsing model with empty history. *)
Definition browsing (p : string) (fs : list DirEntry) (sel mn mx h : Z) : model :=
  {| quitting := false; path := p; files := fs; selected := sel;
     selectedStack := []; min := mn; max := mx; maxStack := []; minStack := [];
     height := h; autoHeight := true; cursor := ">" |}.

(** Two plain files under a viewport of height ten. *)
Definition two_files_tall : model :=
  browsing "/tmp" [entry "a" false; entry "b" false] 1 0 1 10.

(** A plain file under the cursor in [/home/u/docs]. *)
Definition on_report : model :=
  browsing "/home/u/docs" [entry "notes" true; entry "report.txt" false] 1 0 9 10.

(** A directory under the cursor, scrolled window. *)
Definition on_subdir : model :=
  browsing "/srv" [entry "a" true; entry "b" true; entry "c" true; entry "d" false]
    2 1 3 3.

(** Twenty plain files, the window scrolled down to [5..14]. *)
Definition scrolled : model :=
  browsing "/var/log"
    (map (fun n => entry (String (ascii_of_nat (97 + n)) "") false) (seq 0 20))
    8 5 14 10.

(** A directory listing as [os.ReadDir] returns it, sorted by file name. *)
Definition listing : list DirEntry :=
  [entry "Makefile" false; entry "cmd" true; entry "go.mod" false;
   entry "internal" true; entry "main.go" false; entry "assets" true].

(** The line holding the one character U+00E9, bytes 195 169, and the
    delimiter holding the one character U+00A9, bytes 194 169. *)
Definition e_acute : string := String "195" (String "169" "").
Definition copyright_sign : string := String "194" (String "169" "").

(** An empty directory, as at launch before the first load completes. *)
Definition empty_dir : model := browsing "/tmp/empty" [] 0 0 9 10.

End sample.

(* ===================================================================== *)
(** ** The transitions as the specification words them *)
(* ===================================================================== *)

Module spec.

(** Clamping to the valid entry-index range of a list of [n] entries. *)
Definition clamp_index (n i : Z) : Z := Z.max 0 (Z.min i (n - 1)).

(** Jump-to-top: [max = H-1], clamped to [N-1] if [N < H]. *)
Definition top_max (H N : Z) : Z := if N <? H then N - 1 else H - 1.

(** Resize: [max = min + newHeight - 1], clamped to the valid
    entry-index range. *)
Definition resize_max (mn newHeight n : Z) : Z :=
  clamp_index n (mn + newHeight - 1).

(** The loader's ordering policy, for an entry [a] listed before an entry
    [b]: no file comes before a directory, and within a group the names
    ascend. *)
Definition entry_order (a b : file.DirEntry) : Prop :=
  (file.IsDir b = true -> file.IsDir a = true) /\
  (file.IsDir a = file.IsDir b ->
   String.leb (file.Name a) (file.Name b) = true).

End spec.

(* ===================================================================== *)
(** ** Package file: rendering, and conditions on models *)
(* ===================================================================== *)

Module view.

Import file.

(** What [View] uses of the world outside the repository: whether
    [f.Info()] succeeds for an entry at the time of rendering (its size
    and mode are then the [Size] and [Mode] of the entry), the [Render]
    method of each lipgloss style of the model and the width of the size
    style, [humanize.Bytes], and [fmt.Sprintf] with the verb [%Ns] for a
    width [N] spelled by [fmt.Sprint]. *)
Record Env : Type := {
  Info_ok : DirEntry -> bool;
  cursorStyle : string -> string;
  directoryStyle : string -> string;
  fileStyle : string -> string;
  permissionStyle : string -> string;
  selectedStyle : string -> string;
  fileSizeStyle : string -> string;
  fileSizeStyle_GetWidth : Z;
  humanize_Bytes : Z -> string;
  Sprintf_width : Z -> string -> string
}.

(** The text written for entry [f] at index [i], without the newline, once
    its [info] is at hand. *)
Definition line_text (env : Env) (m : model) (i : Z) (f : DirEntry) : string :=
  let size := humanize_Bytes env (Size f mod 2 ^ 64) in
  if selected m =? i then
    cursorStyle env (cursor m) ++
    selectedStyle env
      (" " ++ Mode f ++ " " ++
       Sprintf_width env (fileSizeStyle_GetWidth env) size ++ " " ++ Name f)
  else
    let style := if IsDir f then directoryStyle env else fileStyle env in
    "  " ++ permissionStyle env (Mode f) ++ " " ++ fileSizeStyle env size ++
    " " ++ style (Name f).

(** The loop body for entry [f] at index [i].  The error of [f.Info()] is
    dropped; when it fails [info] is nil and [info.Size()] panics. *)
Definition line (env : Env) (m : model) (i : Z) (f : DirEntry)
  : result string :=
  if Info_ok env f then Ok (line_text env m i f) else Panic.

(** The [range] loop of [View] from index [i] on: [continue] below [min],
    [break] above [max]. *)
Fixpoint loop (env : Env) (m : model) (i : Z) (fs : list DirEntry)
  : result string :=
  match fs with
  | [] => Ok ""
  | f :: rest =>
      if i <? min m then loop env m (i + 1) rest
      else if i >? max m then Ok ""
      else
        let* l := line env m i f in
        let* s := loop env m (i + 1) rest in
        Ok (l ++ String "010" s)
  end.

Definition View (env : Env) (m : model) : result string :=
  if quitting m then Ok ""
  else if len m =? 0 then Ok "Bummer. No files found."
  else loop env m 0 (files m).

(** The entries of a slice paired with their indices from [i] on. *)
Fixpoint indexed (i : Z) (fs : list DirEntry) : list (Z * DirEntry) :=
  match fs with
  | [] => []
  | f :: rest => (i, f) :: indexed (i + 1) rest
  end.

(** The entries whose index lies in the window [min..max]. *)
Definition window (m : model) : list (Z * DirEntry) :=
  filter (fun p => (min m <=? fst p) && (fst p <=? max m)) (indexed 0 (files m)).

(** The lines of a list of indexed entries, each ended by a newline. *)
Fixpoint lines (env : Env) (m : model) (ps : list (Z * DirEntry))
  : result string :=
  match ps with
  | [] => Ok ""
  | (i, f) :: rest =>
      let* l := line env m i f in
      let* s := lines env m rest in
      Ok (l ++ String "010" s)
  end.

End view.

Module nav.

Import file.

(** Messages that only move the view or replace the entries: loads,
    resizes, unhandled messages, and the jump and move keys. *)
Definition is_view_msg (msg : Msg) : Prop :=
  match msg with
  | KeyMsg k => In k ["g"; "G"; "j"; "down"; "k"; "up"]
  | _ => True
  end.

(** The three history stacks have the same depth. *)
Definition stacks_aligned (m : model) : Prop :=
  List.length (selectedStack m) = List.length (minStack m) /\
  List.length (minStack m) = List.length (maxStack m).

(** The cursor is an index of the entry list. *)
Definition cursor_in_range (m : model) : Prop :=
  0 <= selected m < len m.

End nav.

Module fixtures.

Import file.

(** An environment without styling: [Info] always succeeds, every
    [Render] is the identity, sizes print as a fixed text and [%Ns] does
    not pad. *)
Definition plain_env : view.Env :=
  {| view.Info_ok := fun _ => true;
     view.cursorStyle := fun s => s;
     view.directoryStyle := fun s => s;
     view.fileStyle := fun s => s;
     view.permissionStyle := fun s => s;
     view.selectedStyle := fun s => s;
     view.fileSizeStyle := fun s => s;
     view.fileSizeStyle_GetWidth := 0;
     view.humanize_Bytes := fun _ => "0 B";
     view.Sprintf_width := fun _ s => s |}.

(** A visit two levels deep: into [c], into its subdirectory [d], and
    back twice, with the loads in between. *)
Definition two_levels : list Msg :=
  [KeyMsg "l";
   readDirMsg [sample.entry "d" true; sample.entry "e.txt" false];
   KeyMsg "j"; KeyMsg "k";
   KeyMsg "enter"; readDirMsg []; KeyMsg "h";
   KeyMsg "backspace"].

End fixtures.

(* ===================================================================== *)
(** ** Package table: reading the CSV text in [Run] *)
(* ===================================================================== *)

Module tablerun.

Import table.

(** [strings.Split(s, sep)] for a one-byte separator. *)
Fixpoint Split (s : string) (sep : ascii) : list string :=
  match s with
  | EmptyString => [""]
  | String c s' =>
      if Ascii.eqb c sep then "" :: Split s' sep
      else match Split s' sep with
           | [] => [String c ""]
           | x :: xs => String c x :: xs
           end
  end.

Definition LF : ascii := "010"%char.

(** The errors [Run] builds while reading the text: [no columns provided],
    and [row %q has %d columns, expected %d] with its three arguments. *)
Inductive error : Type :=
| no_columns_provided
| row_has_columns (line : string) (got expected : nat).

(** A [mathaou.Column] literal: its [Title] and [Width]. *)
Definition Column : Type := (string * Z)%type.
Definition Row : Type := list string.

(** The column names and the remaining lines: without [o.Columns] the
    first line gives the names and is dropped from the lines. *)
Definition header (Columns : list string) (Separator : string)
  (lines : list string) : error + (list string * list string) :=
  if (List.length Columns <=? 0)%nat then
    match lines with
    | first :: rest => inr (splitAtDelimiter first Separator, rest)
    | [] => inl no_columns_provided
    end
  else inr (Columns, lines).

(** The loop over [o.Columns] from index [i] on.  [StringWidth] is
    [runewidth.StringWidth]. *)
Fixpoint columns (StringWidth : string -> Z) (Widths : list Z) (i : nat)
  (titles : list string) : list Column :=
  match titles with
  | [] => []
  | title :: rest =>
      let width := StringWidth title in
      let width := if (i <? List.length Widths)%nat then nth i Widths 0
                   else width in
      (ReplaceAll title CR "", width)
        :: columns StringWidth Widths (S i) rest
  end.

(** The loop over the lines, [rows] being the rows gathered so far. *)
Fixpoint read_rows (Separator : string) (ncolumns : nat)
  (lines : list string) (rows : list Row) : error + list Row :=
  match lines with
  | [] => inr rows
  | line :: rest =>
      if String.eqb line "" then read_rows Separator ncolumns rest rows
      else
        let row := splitAtDelimiter line Separator in
        if negb (List.length row =? ncolumns)%nat
        then inl (row_has_columns line (List.length row) ncolumns)
        else read_rows Separator ncolumns rest (rows ++ [row])
  end.

(** [Run] from the split into lines to the end of the loop over the
    lines: the columns and rows handed to the table, or the error. *)
Definition read_table (StringWidth : string -> Z)
  (Columns : list string) (Widths : list Z) (Separator : string)
  (csv : string) : error + (list Column * list Row) :=
  let lines := Split csv LF in
  match header Columns Separator lines with
  | inl e => inl e
  | inr (titles, lines) =>
      let cols := columns StringWidth Widths O titles in
      match read_rows Separator (List.length cols) lines [] with
      | inl e => inl e
      | inr rows => inr (cols, rows)
      end
  end.

(** How often byte [b] occurs in [s]. *)
Fixpoint count_byte (b : ascii) (s : string) : nat :=
  match s with
  | EmptyString => O
  | String c s' => (if Ascii.eqb c b then 1 else 0) + count_byte b s'
  end.

(** Prepending text to the first element of a list of fields. *)
Definition glue (p : string) (fields : list string) : list string :=
  match fields with
  | [] => [p]
  | x :: xs => (p ++ x) :: xs
  end.

(** The lines [Run] does not skip. *)
Definition nonempty (line : string) : bool := negb (String.eqb line "").

(** A small table with CRLF line ends and an empty line. *)
Definition small_csv : string :=
  "name,size" ++ String CR (String LF
  ("a.txt,10" ++ String CR (String LF
  (String LF ("b.txt,20" ++ String LF ""))))).

(** A width function for examples: the number of bytes. *)
Definition byte_width (s : string) : Z := Z.of_nat (String.length s).

End tablerun.

(* ===================================================================== *)
(** ** File names *)
(* ===================================================================== *)

Module names.

(** A name as a directory listing has them: not empty, not [.] or [..],
    and without a separator. *)
Definition plain_name (n : string) : bool :=
  negb (String.eqb n "") && negb (String.eqb n ".") &&
  negb (String.eqb n "..") && negb (table.has_byte filepath.Separator n).

(** The state of the loop of [filepath.Clean] after any number of
    elements: [out] is plain elements on top of [dotdot] leading [..]
    elements, and a rooted path has no leading [..]. *)
Definition clean_state (isRooted : bool) (st : list string * nat) : Prop :=
  exists normal,
    fst st = (normal ++ repeat ".." (snd st))%list /\
    Forall (fun e => plain_name e = true) normal /\
    (isRooted = true -> snd st = O).

End names.

(* ===================================================================== *)
(** ** Balanced navigation *)
(* ===================================================================== *)

Module session.

Import file nav names.

(** [excursion m msgs]: from [m], the messages [msgs] are view messages
    and visits to subdirectories, each visit a descend key on a
    plain-named directory under the cursor, an excursion inside it, and an
    ascend key.  The models further on are those [Update] returns, if it
    returns. *)
Inductive excursion : model -> list Msg -> Prop :=
| exc_done (m : model) : excursion m []
| exc_view (m : model) (msg : Msg) (rest : list Msg) :
    is_view_msg msg ->
    (forall m1 c, Update m msg = Ok (m1, c) -> excursion m1 rest) ->
    excursion m (msg :: rest)
| exc_visit (m : model) (f : DirEntry) (kd ka : string)
    (inner rest : list Msg) :
    In kd ["l"; "right"; "enter"] ->
    at_cursor m f -> IsDir f = true -> plain_name (Name f) = true ->
    excursion (descend m f) inner ->
    In ka ["backspace"; "h"; "left"] ->
    (forall m2 m3 c,
       run (descend m f) inner = Ok m2 ->
       Update m2 (KeyMsg ka) = Ok (m3, c) ->
       excursion m3 rest) ->
    excursion m (KeyMsg kd :: inner ++ KeyMsg ka :: rest).

End session.

(* ===================================================================== *)
(** ** Proof support *)
(* ===================================================================== *)

Import goint file sample.

#[local] Arguments wrap : simpl never.
#[local] Arguments filepath.Join : simpl never.
#[local] Arguments filepath.Dir : simpl never.

(** Range side conditions on Go [int]s. *)
Ltac int_range := unfold in_int, min_int, max_int in *; lia.

(** Split the ViewState invariant and case on the list being empty. *)
Ltac use_view_inv H :=
  let Hw := fresh "Hw" in let Hc := fresh "Hc" in let E := fresh "E" in
  destruct H as [Hw Hc];
  destruct (len _ =? 0) eqn:E in Hc;
  [apply Z.eqb_eq in E | apply Z.eqb_neq in E].

(* ===================================================================== *)
(** * Properties *)
(* ===================================================================== *)

(** ** Integers, slices, stacks and paths *)

Lemma wrap_id (z : Z) : goint.in_int z -> goint.wrap z = z.
Proof.
  unfold goint.in_int, goint.min_int, goint.max_int, goint.wrap. intros H.
  rewrite Z.mod_small; lia.
Qed.

Lemma wrap_in_int (z : Z) : goint.in_int (goint.wrap z).
Proof.
  unfold goint.in_int, goint.min_int, goint.max_int, goint.wrap.
  pose proof (Z.mod_pos_bound (z + 2 ^ 63) (2 ^ 64)). lia.
Qed.

Lemma index_Ok_range {A : Type} (s : list A) (i : Z) (a : A) :
  index s i = Ok a -> 0 <= i < Z.of_nat (length s).
Proof.
  unfold index. destruct (i <? 0) eqn:E1; simpl; [discriminate|].
  destruct (Z.of_nat (length s) <=? i) eqn:E2; [discriminate|].
  intros _. apply Z.ltb_ge in E1. apply Z.leb_gt in E2. lia.
Qed.

Lemma index_in_range {A : Type} (s : list A) (i : Z) :
  0 <= i < Z.of_nat (length s) -> exists a, index s i = Ok a.
Proof.
  intros H. unfold index.
  destruct (i <? 0) eqn:E1; [apply Z.ltb_lt in E1; lia|].
  destruct (Z.of_nat (length s) <=? i) eqn:E2; [apply Z.leb_le in E2; lia|].
  simpl. destruct (nth_error s (Z.to_nat i)) eqn:E; [eauto|].
  apply nth_error_None in E. lia.
Qed.

Lemma Pop_Push (i : Z) (s : stack.Stack) :
  stack.Pop (stack.Push i s) = Ok (i, s).
Proof. reflexivity. Qed.

Lemma Length_Push (i : Z) (s : stack.Stack) :
  stack.Length (stack.Push i s) = stack.Length s + 1.
Proof. unfold stack.Length, stack.Push. simpl List.length. lia. Qed.

Example Clean_examples :
  map filepath.Clean ["abc//def"; "/a/b/../c/."; "../../x"; "/.."; "a/.."; ""; "/"; "a/b/"]
  = ["abc/def"; "/a/c"; "../../x"; "/"; "."; "."; "/"; "a/b"].
Proof. reflexivity. Qed.

Example Join_examples :
  map filepath.Join [["a"; "b"]; [""; "b"]; ["/home/u/docs"; "report.txt"]; ["."; "x"]; [""; ""]; ["a"; ""]]
  = ["a/b"; "b"; "/home/u/docs/report.txt"; "x"; ""; "a"].
Proof. reflexivity. Qed.

Example Dir_examples :
  map filepath.Dir ["/home/u/docs"; "/a"; "a"; "a/b/"; "/"; ""; "."]
  = ["/home/u"; "/"; "."; "a/b"; "/"; "."; "."].
Proof. reflexivity. Qed.

(* ===================================================================== *)
(** ** The navigation state machine *)
(* ===================================================================== *)

(** *** Load completed *)

(** C9: a load-completion event replaces [files] by the delivered list and
    leaves every other field of the model as it was: cursor, window bounds,
    the three history stacks, the path, the height settings and the
    quitting flag; no command is issued. *)
Theorem C9_load_replaces_only_entries (m : model) (entries : list DirEntry) :
  exists m',
    Update m (readDirMsg entries) = Ok (m', CmdNil) /\
    files m' = entries /\
    selected m' = selected m /\ min m' = min m /\ max m' = max m /\
    selectedStack m' = selectedStack m /\ minStack m' = minStack m /\
    maxStack m' = maxStack m /\
    path m' = path m /\ quitting m' = quitting m /\
    height m' = height m /\ autoHeight m' = autoHeight m /\
    cursor m' = cursor m.
Proof.
  eexists. split; [reflexivity|]. simpl. repeat split.
Qed.

(** *** Jumps *)

(** Jump-to-top on any model: what the code computes. *)
Lemma Update_g (m : model) :
  Update m (KeyMsg "g") =
  Ok (set_max (wrap (height m - 1)) (set_min 0 (set_selected 0 m)), CmdNil).
Proof. reflexivity. Qed.

Lemma Update_G (m : model) :
  Update m (KeyMsg "G") =
  Ok (set_max (wrap (len m - 1))
        (set_min (wrap (len m - height m))
           (set_selected (wrap (len m - 1)) m)), CmdNil).
Proof. reflexivity. Qed.

Lemma len_nonneg (m : model) : 0 <= len m.
Proof. unfold len. lia. Qed.

(** C6: with N entries and viewport height H, N > H, jump-to-bottom yields
    cursor = N-1, max = N-1 and min = N-H.  The model holds Go [int]s, and
    N-H is taken to be one (it always is when H is not negative). *)
Theorem C6_jump_to_bottom (m : model) :
  wf m -> len m > height m -> len m - height m <= max_int ->
  exists m',
    Update m (KeyMsg "G") = Ok (m', CmdNil) /\
    selected m' = len m - 1 /\
    max m' = len m - 1 /\
    min m' = len m - height m.
Proof.
  intros (Hlen & _ & _ & _ & Hh) Hgt Hfit.
  pose proof (len_nonneg m) as H0.
  assert (H1 : in_int (len m - 1))
    by (unfold in_int, min_int, max_int in *; lia).
  assert (H2 : in_int (len m - height m))
    by (unfold in_int, min_int, max_int in *; lia).
  rewrite Update_G. eexists. split; [reflexivity|]. simpl.
  rewrite !wrap_id by assumption. auto.
Qed.

Lemma C6_jump_to_bottom_witness :
  exists m',
    Update (browsing "/tmp" (map (fun n => entry n false) ["a"; "b"; "c"; "d"; "e"]) 1 0 2 3)
           (KeyMsg "G") = Ok (m', CmdNil) /\
    selected m' = 4 /\ max m' = 4 /\ min m' = 2.
Proof.
  apply (C6_jump_to_bottom
           (browsing "/tmp" (map (fun n => entry n false) ["a"; "b"; "c"; "d"; "e"]) 1 0 2 3)).
  - unfold wf, in_int, min_int, max_int, len. simpl. lia.
  - unfold len. simpl. lia.
  - unfold max_int, len. simpl. lia.
Defined.

(** C4, as stated, fails: with two entries under a viewport of height ten,
    jump-to-top leaves [max] at 9 = H-1; it is not clamped to N-1 = 1. *)
Lemma C4_counterexample :
  len two_files_tall < height two_files_tall /\
  exists m',
    Update two_files_tall (KeyMsg "g") = Ok (m', CmdNil) /\
    max m' = 9 /\
    max m' <> spec.top_max (height two_files_tall) (len two_files_tall).
Proof.
  split; [unfold len; simpl; lia|].
  eexists. split; [reflexivity|]. split; [reflexivity|].
  vm_compute. discriminate.
Qed.

(** C4, amended: jump-to-top yields cursor = 0, min = 0 and max = H-1,
    whatever the number of entries; nothing is clamped to N-1.  (H-1 is
    taken to be a Go [int].) *)
Theorem C4_jump_to_top (m : model) :
  in_int (height m - 1) ->
  exists m',
    Update m (KeyMsg "g") = Ok (m', CmdNil) /\
    selected m' = 0 /\ min m' = 0 /\ max m' = height m - 1.
Proof.
  intros Hh. rewrite Update_g. eexists. split; [reflexivity|]. simpl.
  rewrite wrap_id by assumption. auto.
Qed.

Lemma C4_jump_to_top_witness :
  exists m',
    Update two_files_tall (KeyMsg "g") = Ok (m', CmdNil) /\
    selected m' = 0 /\ min m' = 0 /\ max m' = 9.
Proof.
  apply (C4_jump_to_top two_files_tall).
  unfold in_int, min_int, max_int. simpl. lia.
Defined.

(** *** Opening the entry under the cursor *)

Lemma at_cursor_len (m : model) (f : DirEntry) :
  at_cursor m f -> (len m =? 0) = false.
Proof.
  intros H. apply index_Ok_range in H. unfold len. apply Z.eqb_neq. lia.
Qed.

(** The [l], [right] and [enter] keys with an entry under the cursor. *)
Lemma Update_open (m : model) (f : DirEntry) (k : string) :
  In k ["l"; "right"; "enter"] -> at_cursor m f ->
  Update m (KeyMsg k) =
  if IsDir f then
    Ok (descend m f, readDir (filepath.Join [path m; Name f]))
  else if String.eqb k "enter" then
    Ok (set_quitting true (set_path (filepath.Join [path m; Name f]) m), Quit)
  else Ok (m, CmdNil).
Proof.
  intros Hk Hf. pose proof (at_cursor_len m f Hf) as Hlen.
  unfold at_cursor in Hf.
  simpl in Hk. destruct Hk as [<-|[<-|[<-|[]]]];
    unfold Update; simpl is_key; cbv iota; rewrite Hlen, Hf; simpl bind;
    destruct (IsDir f); reflexivity.
Qed.

(** C7: with a plain file under the cursor, the confirm key ends the
    session ([quitting], command [tea.Quit]) and the result left in [path]
    is the current path joined with the entry's name. *)
Theorem C7_confirm_on_file (m : model) (f : DirEntry) :
  at_cursor m f -> IsDir f = false ->
  exists m',
    Update m (KeyMsg "enter") = Ok (m', Quit) /\
    quitting m' = true /\
    path m' = filepath.Join [path m; Name f].
Proof.
  intros Hf Hd.
  rewrite (Update_open m f "enter") by (simpl; auto || assumption).
  rewrite Hd. simpl. eexists. split; [reflexivity|]. simpl. auto.
Qed.

(** Confirming [report.txt] in [/home/u/docs]. *)
Lemma C7_confirm_on_file_witness :
  exists m',
    Update on_report (KeyMsg "enter") = Ok (m', Quit) /\
    quitting m' = true /\
    path m' = "/home/u/docs/report.txt".
Proof.
  exact (C7_confirm_on_file on_report (entry "report.txt" false)
           eq_refl eq_refl).
Defined.

(** C5, as stated, fails: the confirm key on a directory is not a no-op,
    it descends (new path, reset view, pushed history, a load command). *)
Lemma C5_counterexample :
  at_cursor on_subdir (entry "c" true) /\
  Update on_subdir (KeyMsg "enter") <> Ok (on_subdir, CmdNil) /\
  exists m',
    Update on_subdir (KeyMsg "enter") = Ok (m', readDir "/srv/c") /\
    path m' = "/srv/c" /\ selected m' = 0 /\ selectedStack m' = [2].
Proof.
  split; [reflexivity|]. split.
  - vm_compute. discriminate.
  - eexists. split; [reflexivity|]. repeat split.
Qed.

(** The confirm key returns [tea.Quit] only with a plain file under the
    cursor, and then records its joined path. *)
Lemma confirm_quits_only_on_file (m m' : model) :
  Update m (KeyMsg "enter") = Ok (m', Quit) ->
  exists f,
    at_cursor m f /\ IsDir f = false /\
    quitting m' = true /\ path m' = filepath.Join [path m; Name f].
Proof.
  unfold Update, at_cursor. simpl is_key. cbv iota.
  destruct (len m =? 0); [discriminate|].
  destruct (index (files m) (selected m)) as [f|]; [|discriminate].
  simpl bind. destruct (IsDir f) eqn:Hd; simpl; intros E; inversion E; subst.
  exists f. simpl. auto.
Qed.

(** C5, amended: with an entry under the cursor,
    - on a directory the confirm key does what the descend keys do: it
      descends, and does not end the session;
    - on a plain file the descend keys [l] and [right] change nothing;
    - the confirm key ends the session only on a plain file, whose joined
      path is the result: a directory is never the selected result. *)
Theorem C5_confirm_and_descend (m : model) (f : DirEntry) :
  at_cursor m f ->
  (IsDir f = true ->
     Update m (KeyMsg "enter") = Update m (KeyMsg "l") /\
     Update m (KeyMsg "enter") = Update m (KeyMsg "right") /\
     Update m (KeyMsg "enter") =
       Ok (descend m f, readDir (filepath.Join [path m; Name f])) /\
     quitting (descend m f) = quitting m) /\
  (IsDir f = false ->
     Update m (KeyMsg "l") = Ok (m, CmdNil) /\
     Update m (KeyMsg "right") = Ok (m, CmdNil)) /\
  (forall m',
     Update m (KeyMsg "enter") = Ok (m', Quit) ->
     IsDir f = false /\ path m' = filepath.Join [path m; Name f]).
Proof.
  intros Hf.
  assert (Hl : In "l" ["l"; "right"; "enter"]) by (simpl; auto).
  assert (Hr : In "right" ["l"; "right"; "enter"]) by (simpl; auto).
  assert (He : In "enter" ["l"; "right"; "enter"]) by (simpl; auto).
  split; [|split].
  - intros Hd.
    rewrite (Update_open m f "enter" He Hf), (Update_open m f "l" Hl Hf),
      (Update_open m f "right" Hr Hf), Hd. auto.
  - intros Hd.
    rewrite (Update_open m f "l" Hl Hf), (Update_open m f "right" Hr Hf), Hd.
    auto.
  - intros m' E.
    destruct (confirm_quits_only_on_file m m' E) as (f' & Hf' & Hd & _ & Hp).
    unfold at_cursor in *. rewrite Hf in Hf'. inversion Hf'; subst. auto.
Qed.

Lemma C5_confirm_and_descend_witness :
  (IsDir (entry "c" true) = true ->
     Update on_subdir (KeyMsg "enter") = Update on_subdir (KeyMsg "l") /\
     Update on_subdir (KeyMsg "enter") = Update on_subdir (KeyMsg "right") /\
     Update on_subdir (KeyMsg "enter") =
       Ok (descend on_subdir (entry "c" true), readDir "/srv/c") /\
     quitting (descend on_subdir (entry "c" true)) = false) /\
  (IsDir (entry "c" true) = false ->
     Update on_subdir (KeyMsg "l") = Ok (on_subdir, CmdNil) /\
     Update on_subdir (KeyMsg "right") = Ok (on_subdir, CmdNil)) /\
  (forall m',
     Update on_subdir (KeyMsg "enter") = Ok (m', Quit) ->
     IsDir (entry "c" true) = false /\ path m' = "/srv/c").
Proof.
  exact (C5_confirm_and_descend on_subdir (entry "c" true) eq_refl).
Defined.

(** *** Descend, then ascend *)

(** The ascend keys when the cursor stack is not empty. *)
Lemma Update_back (m : model) (k : string) :
  In k ["backspace"; "h"; "left"] ->
  Update m (KeyMsg k) =
  let m := set_path (filepath.Dir (path m)) m in
  let* m :=
    if stack.Length (selectedStack m) >? 0 then
      let* (s, mn, mx, m) := popView m in
      Ok (set_max mx (set_min mn (set_selected s m)))
    else
      Ok (set_max (wrap (height m - 1)) (set_min 0 (set_selected 0 m))) in
  Ok (m, readDir (path m)).
Proof.
  intros Hk. simpl in Hk. destruct Hk as [<-|[<-|[<-|[]]]]; reflexivity.
Qed.

(** C2: with a directory under the cursor, a descend key followed at once
    by an ascend key gives back the cursor, min and max from before the
    descend (and leaves the three history stacks as they were). *)
Theorem C2_descend_then_ascend (m : model) (f : DirEntry) (kd ka : string) :
  at_cursor m f -> IsDir f = true ->
  In kd ["l"; "right"; "enter"] -> In ka ["backspace"; "h"; "left"] ->
  exists m1 c1 m2 c2,
    Update m (KeyMsg kd) = Ok (m1, c1) /\
    Update m1 (KeyMsg ka) = Ok (m2, c2) /\
    (selected m2, min m2, max m2) = (selected m, min m, max m) /\
    (selectedStack m2, minStack m2, maxStack m2) =
      (selectedStack m, minStack m, maxStack m).
Proof.
  intros Hf Hd Hkd Hka.
  rewrite (Update_open m f kd Hkd Hf), Hd.
  do 2 eexists. exists (set_path (filepath.Dir (filepath.Join [path m; Name f])) m).
  eexists. split; [reflexivity|].
  rewrite (Update_back _ ka Hka). unfold descend, pushView, popView. simpl.
  unfold stack.Length, stack.Push. simpl List.length.
  destruct (Z.of_nat (S (List.length (selectedStack m))) >? 0) eqn:E.
  - simpl. split; [|split; reflexivity].
    destruct m; reflexivity.
  - exfalso. rewrite Z.gtb_ltb in E. apply Z.ltb_ge in E. lia.
Qed.

Lemma C2_descend_then_ascend_witness :
  exists m1 c1 m2 c2,
    Update on_subdir (KeyMsg "l") = Ok (m1, c1) /\
    Update m1 (KeyMsg "h") = Ok (m2, c2) /\
    (selected m2, min m2, max m2) = (2, 1, 3) /\
    (selectedStack m2, minStack m2, maxStack m2) = ([], [], []).
Proof.
  apply (C2_descend_then_ascend on_subdir (entry "c" true) "l" "h");
    simpl; auto.
  reflexivity.
Defined.

(** *** Resize *)

(** What a resize does: the height follows the message under auto-height,
    and [max] becomes the height. *)
Lemma Update_resize (m : model) (w h : Z) :
  Update m (WindowSizeMsg w h) =
  let m := if autoHeight m then set_height (wrap (h - marginBottom)) m else m in
  Ok (set_max (height m) m, CmdNil).
Proof. reflexivity. Qed.

(** Whatever the window was, a resize leaves [max] equal to the height. *)
Lemma resize_max_is_height (m m' : model) (w h : Z) (c : Cmd) :
  Update m (WindowSizeMsg w h) = Ok (m', c) -> max m' = height m'.
Proof.
  rewrite Update_resize. cbv zeta. intros E. inversion E; subst.
  destruct (autoHeight m); reflexivity.
Qed.

(** C3, at a scrolled window: with twenty entries, min = 5 and the cursor
    on 8, a resize to 9 lines (a viewport of 4 under the bottom margin)
    sets max to 4, the height itself.  The claim's max, min + newHeight - 1
    clamped to the entry range, is 8 (13 with the height of the message);
    no clamp is involved and the cursor is inside that window.  The window
    the code leaves, from 5 to 4, is empty.  On the resulting model the
    jump-to-top branch sets max to height - 1. *)
Theorem C3_resize_sets_max_to_height :
  exists m',
    Update scrolled (WindowSizeMsg 80 9) = Ok (m', CmdNil) /\
    (selected m', min m', max m', height m') = (8, 5, 4, 4) /\
    spec.resize_max (min scrolled) (height m') (len scrolled) = 8 /\
    spec.resize_max (min scrolled) 9 (len scrolled) = 13 /\
    max m' < min m' /\
    exists mg,
      Update m' (KeyMsg "g") = Ok (mg, CmdNil) /\ max mg = height m' - 1.
Proof.
  eexists. split; [reflexivity|].
  repeat split; try (vm_compute; reflexivity).
  eexists. split; [reflexivity|]. vm_compute. reflexivity.
Qed.

(** *** Moving the cursor *)

Lemma Update_down (m : model) (k : string) :
  In k ["j"; "down"] ->
  Update m (KeyMsg k) =
  Ok (let s1 := wrap (selected m + 1) in
      let s2 := if s1 >=? len m then wrap (len m - 1) else s1 in
      if s2 >? max m
      then set_max (wrap (max m + 1))
             (set_min (wrap (min m + 1)) (set_selected s2 m))
      else set_selected s2 m, CmdNil).
Proof.
  intros Hk. simpl in Hk. destruct Hk as [<-|[<-|[]]];
    unfold Update; simpl is_key; cbv iota zeta;
    change (len (set_selected (wrap (selected m + 1)) m)) with (len m);
    simpl selected;
    destruct (wrap (selected m + 1) >=? len m); simpl selected; simpl max;
    match goal with |- context [?a >? ?b] => destruct (a >? b) end;
    reflexivity.
Qed.

Lemma Update_up (m : model) (k : string) :
  In k ["k"; "up"] ->
  Update m (KeyMsg k) =
  Ok (let s1 := wrap (selected m - 1) in
      let s2 := if s1 <? 0 then 0 else s1 in
      if s2 <? min m
      then set_max (wrap (max m - 1))
             (set_min (wrap (min m - 1)) (set_selected s2 m))
      else set_selected s2 m, CmdNil).
Proof.
  intros Hk. simpl in Hk. destruct Hk as [<-|[<-|[]]];
    unfold Update; simpl is_key; cbv iota zeta;
    simpl selected;
    destruct (wrap (selected m - 1) <? 0); simpl selected; simpl min;
    match goal with |- context [?a <? min m] => destruct (a <? min m) end;
    reflexivity.
Qed.

(** One move-down on a non-empty list keeps the invariant. *)
Lemma down_keeps_inv (m : model) (k : string) :
  In k ["j"; "down"] -> wf m -> ViewInv m -> 0 < len m ->
  exists m',
    Update m (KeyMsg k) = Ok (m', CmdNil) /\
    wf m' /\ ViewInv m' /\ files m' = files m.
Proof.
  intros Hk (Hlen & Hs & Hmn & Hmx & Hh) Hinv Hpos.
  use_view_inv Hinv; [lia|].
  rewrite (Update_down m k Hk). eexists. split; [reflexivity|].
  cbv zeta.
  rewrite (wrap_id (selected m + 1)) by int_range.
  rewrite Z.geb_leb.
  destruct (Z.leb_spec (len m) (selected m + 1)) as [Hge|Hlt].
  - rewrite (wrap_id (len m - 1)) by int_range.
    rewrite Z.gtb_ltb.
    destruct (Z.ltb_spec (max m) (len m - 1)) as [Hsl|Hns].
    + rewrite !wrap_id by int_range.
      unfold wf, ViewInv, len in *; simpl.
      destruct (Z.eqb_spec (Z.of_nat (List.length (files m))) 0);
        repeat split; try int_range.
    + unfold wf, ViewInv, len in *; simpl.
      destruct (Z.eqb_spec (Z.of_nat (List.length (files m))) 0);
        repeat split; try int_range.
  - rewrite Z.gtb_ltb.
    destruct (Z.ltb_spec (max m) (selected m + 1)) as [Hsl|Hns].
    + rewrite !wrap_id by int_range.
      unfold wf, ViewInv, len in *; simpl.
      destruct (Z.eqb_spec (Z.of_nat (List.length (files m))) 0);
        repeat split; try int_range.
    + unfold wf, ViewInv, len in *; simpl.
      destruct (Z.eqb_spec (Z.of_nat (List.length (files m))) 0);
        repeat split; try int_range.
Qed.

(** One move-up keeps the invariant, on the empty list too. *)
Lemma up_keeps_inv (m : model) (k : string) :
  In k ["k"; "up"] -> wf m -> ViewInv m ->
  exists m',
    Update m (KeyMsg k) = Ok (m', CmdNil) /\
    wf m' /\ ViewInv m' /\ files m' = files m.
Proof.
  intros Hk (Hlen & Hs & Hmn & Hmx & Hh) Hinv.
  rewrite (Update_up m k Hk). eexists. split; [reflexivity|].
  cbv zeta.
  assert (Hsel : 0 <= selected m).
  { use_view_inv Hinv; lia. }
  rewrite (wrap_id (selected m - 1)) by int_range.
  destruct (Z.ltb_spec (selected m - 1) 0) as [Hz|Hnz].
  - destruct (Z.ltb_spec 0 (min m)) as [Hsl|Hns].
    + exfalso. destruct Hinv as [Hw _]. lia.
    + destruct Hinv as [Hw Hc].
      unfold wf, ViewInv, len in *; simpl.
      destruct (Z.eqb_spec (Z.of_nat (List.length (files m))) 0);
        repeat split; try int_range.
  - destruct (Z.ltb_spec (selected m - 1) (min m)) as [Hsl|Hns].
    + rewrite !wrap_id by (destruct Hinv; int_range).
      destruct Hinv as [Hw Hc].
      unfold wf, ViewInv, len in *; simpl.
      destruct (Z.eqb_spec (Z.of_nat (List.length (files m))) 0);
        repeat split; try int_range.
    + destruct Hinv as [Hw Hc].
      unfold wf, ViewInv, len in *; simpl.
      destruct (Z.eqb_spec (Z.of_nat (List.length (files m))) 0);
        repeat split; try int_range.
Qed.

(** On a non-empty entry list, every sequence of move-down and move-up
    events keeps the cursor inside the window and inside the list, after
    every event. *)
Lemma moves_keep_inv_nonempty (msgs : list Msg) :
  Forall is_move msgs ->
  forall m, wf m -> ViewInv m -> 0 < len m ->
  exists m', run m msgs = Ok m' /\ wf m' /\ ViewInv m' /\ files m' = files m.
Proof.
  induction 1 as [|msg msgs Hmsg _ IH]; intros m Hwf Hinv Hpos.
  - exists m. simpl. auto.
  - destruct msg as [| |k|]; simpl in Hmsg; try contradiction.
    assert (Hstep : exists m1, Update m (KeyMsg k) = Ok (m1, CmdNil) /\
                      wf m1 /\ ViewInv m1 /\ files m1 = files m).
    { destruct Hmsg as [<-|[<-|Hup]].
      - apply down_keeps_inv; simpl; auto.
      - apply down_keeps_inv; simpl; auto.
      - apply up_keeps_inv; auto. }
    destruct Hstep as (m1 & E1 & Hwf1 & Hinv1 & Hf1).
    destruct (IH m1 Hwf1 Hinv1) as (m' & Er & Hwf' & Hinv' & Hf').
    { unfold len. rewrite Hf1. exact Hpos. }
    exists m'. cbn [run]. rewrite E1. cbn [bind]. rewrite Hf', Hf1. auto.
Qed.

Lemma Forall_app_l {A : Type} (P : A -> Prop) (l1 l2 : list A) :
  Forall P (l1 ++ l2) -> Forall P l1.
Proof. intros H. apply Forall_app in H. tauto. Qed.

Lemma moves_cursor_in_range_nonempty (m : model) (before after : list Msg) :
  wf m -> ViewInv m -> 0 < len m -> Forall is_move (before ++ after) ->
  exists m',
    run m before = Ok m' /\
    min m' <= selected m' <= max m' /\
    0 <= selected m' <= len m' - 1 /\ len m' = len m.
Proof.
  intros Hwf Hinv Hpos Hall. apply Forall_app_l in Hall.
  destruct (moves_keep_inv_nonempty before Hall m Hwf Hinv Hpos)
    as (m' & Er & _ & Hinv' & Hf).
  assert (Hl : len m' = len m) by (unfold len; rewrite Hf; reflexivity).
  exists m'. split; [exact Er|].
  use_view_inv Hinv'; [lia|]. repeat split; lia.
Qed.

(** C1, at the empty list: the launch state of an empty directory meets
    the invariant, and one move-down sets the cursor to -1, below both 0
    and min.  The stray cursor then makes the confirm key panic once a
    load delivers entries. *)
Theorem C1_move_down_on_empty_list :
  wf empty_dir /\ ViewInv empty_dir /\ len empty_dir = 0 /\
  (exists m',
     Update empty_dir (KeyMsg "j") = Ok (m', CmdNil) /\
     selected m' = -1 /\ min m' = 0 /\ max m' = 9 /\ len m' = 0 /\
     ~ ViewInv m') /\
  run empty_dir
    [KeyMsg "j"; readDirMsg [entry "a.txt" false]; KeyMsg "enter"] = Panic.
Proof.
  split; [unfold wf, len; simpl; repeat split; int_range|].
  split; [unfold ViewInv, len; simpl; lia|].
  split; [reflexivity|]. split.
  - eexists. split; [reflexivity|]. repeat split.
    intros [[Hlow _] _]. vm_compute in Hlow. apply Hlow. reflexivity.
  - reflexivity.
Qed.

(* ===================================================================== *)
(** ** The directory loader *)
(* ===================================================================== *)

(** *** Byte-wise order of Go strings *)

Lemma ascii_compare_lt_trans (a b c : ascii) :
  Ascii.compare a b = Lt -> Ascii.compare b c = Lt -> Ascii.compare a c = Lt.
Proof.
  unfold Ascii.compare. rewrite !N.compare_lt_iff. lia.
Qed.

Lemma ascii_compare_refl (a : ascii) : Ascii.compare a a = Eq.
Proof. unfold Ascii.compare. apply N.compare_refl. Qed.

Lemma string_compare_refl (s : string) : String.compare s s = Eq.
Proof.
  induction s as [|c s IH]; simpl; [reflexivity|].
  rewrite ascii_compare_refl. exact IH.
Qed.

Lemma string_compare_lt_trans (s1 s2 s3 : string) :
  String.compare s1 s2 = Lt -> String.compare s2 s3 = Lt ->
  String.compare s1 s3 = Lt.
Proof.
  revert s2 s3. induction s1 as [|a s1 IH]; intros [|b s2] [|c s3];
    simpl; try congruence.
  destruct (Ascii.compare a b) eqn:Eab; try discriminate;
    destruct (Ascii.compare b c) eqn:Ebc; try discriminate; intros H1 H2.
  - apply Ascii.compare_eq_iff in Eab, Ebc. subst.
    rewrite ascii_compare_refl. eapply IH; eauto.
  - apply Ascii.compare_eq_iff in Eab. subst. rewrite Ebc. reflexivity.
  - apply Ascii.compare_eq_iff in Ebc. subst. rewrite Eab. reflexivity.
  - rewrite (ascii_compare_lt_trans a b c Eab Ebc). reflexivity.
Qed.

Lemma string_compare_gt_lt (s1 s2 : string) :
  String.compare s1 s2 = Gt <-> String.compare s2 s1 = Lt.
Proof.
  rewrite (String.compare_antisym s2 s1).
  destruct (String.compare s1 s2); simpl; split; congruence.
Qed.

Lemma string_ltb_irrefl (s : string) : String.ltb s s = false.
Proof. unfold String.ltb. rewrite string_compare_refl. reflexivity. Qed.

Lemma string_ltb_trans (s1 s2 s3 : string) :
  String.ltb s1 s2 = true -> String.ltb s2 s3 = true -> String.ltb s1 s3 = true.
Proof.
  unfold String.ltb.
  destruct (String.compare s1 s2) eqn:E1; try discriminate.
  destruct (String.compare s2 s3) eqn:E2; try discriminate.
  rewrite (string_compare_lt_trans _ _ _ E1 E2). reflexivity.
Qed.

Lemma string_ltb_negtrans (s1 s2 s3 : string) :
  String.ltb s1 s2 = false -> String.ltb s2 s3 = false ->
  String.ltb s1 s3 = false.
Proof.
  unfold String.ltb.
  destruct (String.compare s1 s2) eqn:E1; try discriminate;
    destruct (String.compare s2 s3) eqn:E2; try discriminate; intros _ _.
  - apply String.compare_eq_iff in E1, E2. subst.
    rewrite string_compare_refl. reflexivity.
  - apply String.compare_eq_iff in E1. subst. rewrite E2. reflexivity.
  - apply String.compare_eq_iff in E2. subst. rewrite E1. reflexivity.
  - apply string_compare_gt_lt in E1, E2.
    pose proof (string_compare_lt_trans _ _ _ E2 E1) as H.
    apply string_compare_gt_lt in H. rewrite H. reflexivity.
Qed.

Lemma string_not_ltb_leb (s1 s2 : string) :
  String.ltb s2 s1 = false -> String.leb s1 s2 = true.
Proof.
  unfold String.ltb, String.leb.
  destruct (String.compare s1 s2) eqn:E; try reflexivity.
  apply string_compare_gt_lt in E. rewrite E. discriminate.
Qed.

(** *** The comparison of [readDir] is a strict weak ordering *)

Lemma less_strict_weak : sort.strict_weak less.
Proof.
  unfold sort.strict_weak, less. repeat split.
  - intros x. rewrite Bool.eqb_reflx. apply string_ltb_irrefl.
  - intros x y z.
    destruct (IsDir x), (IsDir y), (IsDir z); simpl;
      try congruence; apply string_ltb_trans.
  - intros x y z.
    destruct (IsDir x), (IsDir y), (IsDir z); simpl;
      try congruence; apply string_ltb_negtrans.
Qed.

Lemma not_less_entry_order (a b : DirEntry) :
  less b a = false -> spec.entry_order a b.
Proof.
  unfold less, spec.entry_order.
  destruct (IsDir a), (IsDir b); simpl; intros H; split;
    try congruence; intros _; apply string_not_ltb_leb; exact H.
Qed.

(** *** Sorted slices *)

Lemma sorted_by_strongly {A : Type} (less : A -> A -> bool) (l : list A) :
  sort.strict_weak less -> sort.sorted_by less l ->
  StronglySorted (fun x y => less y x = false) l.
Proof.
  intros (_ & _ & Hneg) Hs. apply Sorted_StronglySorted; [|exact Hs].
  intros x y z Hxy Hyz. eapply Hneg; eauto.
Qed.

Lemma StronglySorted_weaken {A : Type} (R S : A -> A -> Prop) (l : list A) :
  (forall x y, R x y -> S x y) -> StronglySorted R l -> StronglySorted S l.
Proof.
  intros HRS. induction 1 as [|x l Hl IH Hx]; constructor; [exact IH|].
  eapply Forall_impl; [|exact Hx]. intros y. apply HRS.
Qed.

(** *** Insertion sort meets the contract of [sort.Slice] *)

Lemma insert_perm {A : Type} (less : A -> A -> bool) (x : A) (l : list A) :
  Permutation (x :: l) (sort.insert less x l).
Proof.
  induction l as [|y l IH]; simpl; [apply Permutation_refl|].
  destruct (less x y); [apply Permutation_refl|].
  eapply perm_trans; [apply perm_swap|]. apply perm_skip. exact IH.
Qed.

Lemma insertion_sort_perm {A : Type} (less : A -> A -> bool) (l : list A) :
  Permutation l (sort.insertion_sort less l).
Proof.
  induction l as [|x l IH]; simpl; [constructor|].
  eapply perm_trans; [apply perm_skip; exact IH|]. apply insert_perm.
Qed.

Lemma insert_HdRel {A : Type} (less : A -> A -> bool) (x y : A) (l : list A) :
  less x y = false ->
  HdRel (fun a b => less b a = false) y l ->
  HdRel (fun a b => less b a = false) y (sort.insert less x l).
Proof.
  intros Hxy Hy. destruct l as [|z l]; simpl.
  - constructor. exact Hxy.
  - destruct (less x z); constructor; [exact Hxy|].
    inversion Hy; assumption.
Qed.

Lemma insert_sorted {A : Type} (less : A -> A -> bool) (x : A) (l : list A) :
  sort.strict_weak less ->
  sort.sorted_by less l -> sort.sorted_by less (sort.insert less x l).
Proof.
  intros (Hirr & Htr & _). unfold sort.sorted_by.
  induction l as [|y l IH]; intros Hs; simpl.
  - repeat constructor.
  - destruct (less x y) eqn:Hxy.
    + constructor; [exact Hs|]. constructor.
      destruct (less y x) eqn:Hyx; [|reflexivity].
      rewrite <- (Hirr x). symmetry. eapply Htr; eauto.
    + inversion Hs as [|? ? Hl Hhd]; subst.
      constructor; [apply IH; exact Hl|].
      apply insert_HdRel; assumption.
Qed.

Lemma insertion_sort_contract {A : Type} :
  sort.Slice_contract (@sort.insertion_sort A).
Proof.
  intros less l. split; [apply insertion_sort_perm|].
  intros Hsw. induction l as [|x l IH]; simpl.
  - constructor.
  - apply insert_sorted; assumption.
Qed.

(** *** The order of the delivered list *)

(** C8: when the directory is read successfully, the loader delivers the
    entries that were read, rearranged so that every entry stands in the
    ordering policy to every later one: directories before files, and
    names ascending within each of the two groups.  [sort_Slice] is any
    routine that meets the contract of [sort.Slice]. *)
Theorem C8_loader_orders_entries
  (sort_Slice : (DirEntry -> DirEntry -> bool) -> list DirEntry -> list DirEntry)
  (ReadDir : string -> option (list DirEntry))
  (dir : string) (dirEntries : list DirEntry) :
  sort.Slice_contract sort_Slice ->
  ReadDir dir = Some dirEntries ->
  exists out,
    run_readDir sort_Slice ReadDir dir = readDirMsg out /\
    Permutation dirEntries out /\
    StronglySorted spec.entry_order out /\
    out = (filter IsDir out ++ filter (fun f => negb (IsDir f)) out)%list.
Proof.
  intros Hc Hread. destruct (Hc less dirEntries) as [Hperm Hsorted].
  exists (sort_Slice less dirEntries).
  unfold run_readDir. rewrite Hread.
  assert (Hss : StronglySorted spec.entry_order (sort_Slice less dirEntries)).
  { eapply StronglySorted_weaken; [apply not_less_entry_order|].
    apply sorted_by_strongly; [apply less_strict_weak|].
    apply Hsorted. apply less_strict_weak. }
  repeat split; try assumption.
  clear -Hss. induction Hss as [|x l Hl IH Hx]; [reflexivity|].
  simpl. destruct (IsDir x) eqn:Hd; simpl.
  - rewrite <- IH. reflexivity.
  - assert (Hnone : filter IsDir l = []).
    { clear -Hx Hd. induction Hx as [|y l [Hy _] _ IH]; [reflexivity|].
      simpl. destruct (IsDir y) eqn:Hdy; [|exact IH].
      rewrite Hy in Hd by reflexivity. discriminate. }
    rewrite Hnone in *. simpl in *. rewrite <- IH. reflexivity.
Qed.

Lemma C8_loader_orders_entries_witness :
  exists out,
    run_readDir sort.insertion_sort (fun _ => Some listing) "/src/gum"
      = readDirMsg out /\
    Permutation listing out /\
    StronglySorted spec.entry_order out /\
    out = (filter IsDir out ++ filter (fun f => negb (IsDir f)) out)%list.
Proof.
  apply (C8_loader_orders_entries sort.insertion_sort
           (fun _ => Some listing) "/src/gum" listing).
  - apply insertion_sort_contract.
  - reflexivity.
Defined.

Example readDir_listing :
  run_readDir sort.insertion_sort (fun _ => Some listing) "/src/gum"
  = readDirMsg
      [entry "assets" true; entry "cmd" true; entry "internal" true;
       entry "Makefile" false; entry "go.mod" false; entry "main.go" false].
Proof. reflexivity. Qed.

(** A failed read delivers no entry list. *)
Lemma readDir_failure
  (sort_Slice : (DirEntry -> DirEntry -> bool) -> list DirEntry -> list DirEntry)
  (ReadDir : string -> option (list DirEntry)) (dir : string) :
  ReadDir dir = None -> run_readDir sort_Slice ReadDir dir = OtherMsg.
Proof. intros H. unfold run_readDir. rewrite H. reflexivity. Qed.

(* ===================================================================== *)
(** ** Splitting a line at a delimiter *)
(* ===================================================================== *)

Import table.

(** *** Slices of a string *)

Lemma substring_all (s : string) : substring 0 (String.length s) s = s.
Proof.
  induction s as [|c s IH]; simpl; [reflexivity|]. rewrite IH. reflexivity.
Qed.

Lemma get_lt_length (s : string) (i : nat) (c : ascii) :
  String.get i s = Some c -> (i < String.length s)%nat.
Proof.
  revert i. induction s as [|a s IH]; intros [|i]; simpl; try discriminate.
  - lia.
  - intros H. apply IH in H. lia.
Qed.

Lemma get_of_lt_length (s : string) (i : nat) :
  (i < String.length s)%nat -> exists c, String.get i s = Some c.
Proof.
  revert i. induction s as [|a s IH]; intros [|i]; simpl; try lia.
  - eauto.
  - intros H. apply IH. lia.
Qed.

(** [s[beg:] = s[beg:i] + s[i] + s[i+1:]] for [beg <= i < len(s)]. *)
Lemma slice_from_split (s : string) (beg i : nat) (c : ascii) :
  (beg <= i)%nat -> String.get i s = Some c ->
  slice_from s beg = slice s beg i ++ String c (slice_from s (S i)).
Proof.
  unfold slice_from, slice. revert beg i.
  induction s as [|a s IH]; intros beg i Hle Hget; [destruct i; discriminate|].
  destruct beg as [|b].
  - destruct i as [|i]; simpl in Hget.
    + inversion Hget; subst. simpl. rewrite Nat.sub_0_r, substring_all.
      reflexivity.
    + specialize (IH O i (Nat.le_0_l i) Hget).
      rewrite !Nat.sub_0_r in IH. simpl. rewrite IH. reflexivity.
  - destruct i as [|i]; [lia|]. simpl in Hget.
    specialize (IH b i (le_S_n _ _ Hle) Hget). simpl. exact IH.
Qed.

(** *** Bytes that do not occur *)

Lemma has_byte_get (b : ascii) (s : string) (i : nat) (c : ascii) :
  has_byte b s = false -> String.get i s = Some c -> Ascii.eqb c b = false.
Proof.
  revert i. induction s as [|a s IH]; intros [|i]; simpl; try discriminate;
    intros H Hget; apply Bool.orb_false_iff in H; destruct H as [Ha Hs].
  - inversion Hget; subst. exact Ha.
  - eapply IH; eauto.
Qed.

Lemma has_byte_substring (b : ascii) (s : string) (n m : nat) :
  has_byte b s = false -> has_byte b (substring n m s) = false.
Proof.
  revert n m. induction s as [|a s IH]; intros n m H.
  - destruct n, m; reflexivity.
  - simpl in H. apply Bool.orb_false_iff in H. destruct H as [Ha Hs].
    destruct n as [|n]; [destruct m as [|m]|]; simpl; auto.
    rewrite Ha. simpl. auto.
Qed.

Lemma ReplaceAll_absent (s : string) (old : ascii) (new : string) :
  has_byte old s = false -> ReplaceAll s old new = s.
Proof.
  induction s as [|a s IH]; simpl; [reflexivity|].
  intros H. apply Bool.orb_false_iff in H. destruct H as [Ha Hs].
  rewrite Ha, IH by assumption. reflexivity.
Qed.

(** *** Joining *)

(** Joining two last fields equals joining their concatenation around
    the separator. *)
Lemma Join_last_two (res : list string) (a b sep : string) :
  Join (res ++ [a; b])%list sep = Join (res ++ [(a ++ sep ++ b)%string])%list sep.
Proof.
  unfold Join. induction res as [|x res IH]; simpl; [reflexivity|].
  destruct res as [|y res]; simpl in *.
  - reflexivity.
  - rewrite IH. reflexivity.
Qed.

(** *** [string(b)] against a one-byte delimiter *)

Lemma string_of_byte_one (b c : ascii) :
  String.eqb (string_of_byte b) (String c "") = true -> b = c.
Proof.
  unfold string_of_byte. destruct (N_of_ascii b <? 128)%N; intros H.
  - apply String.eqb_eq in H. inversion H. reflexivity.
  - apply String.eqb_eq in H. discriminate.
Qed.

(** *** The loop *)

(** Without quotes in [s] the loop never enters a quoted string, and at
    every index the fields cut so far, followed by the rest of the line,
    join back to [s]. *)
Lemma split_loop (s : string) (c : ascii) :
  has_byte quote s = false -> has_byte CR s = false ->
  forall (n start : nat) (res : list string) (beg : nat),
    (start + n = String.length s)%nat -> (beg <= start)%nat ->
    Join (res ++ [slice_from s beg])%list (String c "") = s ->
    exists res' beg',
      fold_left (split_step s (String c "")) (seq start n) (res, beg, false)
        = (res', beg', false) /\
      Join (res' ++ [slice_from s beg'])%list (String c "") = s.
Proof.
  intros Hq Hcr. induction n as [|n IH]; intros start res beg Hlen Hbeg Hjoin.
  - exists res, beg. split; [reflexivity|exact Hjoin].
  - destruct (get_of_lt_length s start) as [b Hb]; [lia|].
    cbn [seq fold_left].
    assert (Hstep :
      split_step s (String c "") (res, beg, false) start =
      if String.eqb (string_of_byte b) (String c "")
      then ((res ++ [slice s beg start])%list, S start, false)
      else (res, beg, false)).
    { unfold split_step, byte_at. rewrite Hb.
      rewrite (has_byte_get quote s start b Hq Hb).
      destruct (String.eqb (string_of_byte b) (String c "")); simpl;
        [|reflexivity].
      rewrite ReplaceAll_absent; [reflexivity|].
      apply has_byte_substring. exact Hcr. }
    rewrite Hstep.
    destruct (String.eqb (string_of_byte b) (String c "")) eqn:Hd.
    + apply string_of_byte_one in Hd. subst b.
      apply IH; [lia|lia|].
      rewrite <- app_assoc. simpl app. rewrite Join_last_two.
      simpl append. rewrite <- (slice_from_split s beg start c Hbeg Hb).
      exact Hjoin.
    + apply IH; [lia|lia|exact Hjoin].
Qed.

(** On a line without double quote and without carriage return,
    splitting at a one-byte delimiter and joining the fields with that
    delimiter gives the line back; the list of fields is never empty. *)
Lemma split_then_join_one_byte (s : string) (d : ascii) :
  has_byte quote s = false -> has_byte CR s = false ->
  Join (splitAtDelimiter s (String d "")) (String d "") = s /\
  splitAtDelimiter s (String d "") <> [].
Proof.
  intros Hq Hcr.
  destruct (split_loop s d Hq Hcr (String.length s) O [] O)
    as (res & beg & Hfold & Hjoin).
  - reflexivity.
  - lia.
  - unfold slice_from, slice, Join. simpl.
    rewrite Nat.sub_0_r, substring_all. reflexivity.
  - unfold splitAtDelimiter. rewrite Hfold.
    rewrite ReplaceAll_absent
      by (apply has_byte_substring; exact Hcr).
    split; [exact Hjoin|].
    destruct res; discriminate.
Qed.

Lemma split_then_join_one_byte_witness :
  Join (splitAtDelimiter "name,size,,mode" ",") "," = "name,size,,mode" /\
  splitAtDelimiter "name,size,,mode" "," <> [].
Proof.
  apply (split_then_join_one_byte "name,size,,mode" ","%char); reflexivity.
Defined.

Example splitAtDelimiter_fields :
  splitAtDelimiter "name,size,,mode" "," = ["name"; "size"; ""; "mode"].
Proof. reflexivity. Qed.

(** C10, at a delimiter of one character and two bytes: the line is the
    character U+00E9 (bytes 195 169), the delimiter the character U+00A9
    (bytes 194 169); neither holds a quote or a carriage return.
    [string(s[1])] is the encoding of the code point 169, which is the
    delimiter, so the line is cut inside its one character: the fields are
    the byte 195 and the empty string, and joining them gives the three
    bytes 195 194 169, not the line. *)
Theorem C10_two_byte_delimiter_splits_a_character :
  has_byte quote e_acute = false /\ has_byte CR e_acute = false /\
  String.length e_acute = 2%nat /\
  splitAtDelimiter e_acute copyright_sign = [String "195" ""; ""] /\
  Join (splitAtDelimiter e_acute copyright_sign) copyright_sign =
    String "195" copyright_sign /\
  Join (splitAtDelimiter e_acute copyright_sign) copyright_sign <> e_acute.
Proof. repeat split. discriminate. Qed.

(** The same slip with the delimiter U+00E9 (bytes 195 169) on a line
    that holds the single byte 233: the byte is taken for the delimiter
    and joining puts two bytes in its place. *)
Example two_byte_delimiter :
  let s := String "097" (String "233" (String "098" "")) in
  let d := String "195" (String "169" "") in
  has_byte quote s = false /\ has_byte CR s = false /\
  splitAtDelimiter s d = ["a"; "b"] /\
  Join (splitAtDelimiter s d) d <> s.
Proof. repeat split. discriminate. Qed.

(* ===================================================================== *)
(** * Further properties of the file picker *)
(* ===================================================================== *)

Import nav.

(** ** Which key does what *)

Lemma is_key_In (k : string) (ks : list string) :
  is_key k ks = true <-> In k ks.
Proof.
  unfold is_key. rewrite existsb_exists. split.
  - intros (x & Hin & Heq). apply String.eqb_eq in Heq. subst. exact Hin.
  - intros Hin. exists k. split; [exact Hin|apply String.eqb_refl].
Qed.

Lemma Update_cancel (m : model) (k : string) :
  In k ["ctrl+c"; "q"] ->
  Update m (KeyMsg k) = Ok (set_quitting true (set_path "" m), Quit).
Proof.
  intros Hk. simpl in Hk. destruct Hk as [<-|[<-|[]]]; reflexivity.
Qed.

(** A key outside every case of the switch changes nothing. *)
Lemma Update_other_key (m : model) (k : string) :
  ~ In k ["g"; "G"; "j"; "down"; "k"; "up"; "ctrl+c"; "q";
          "backspace"; "h"; "left"; "l"; "right"; "enter"] ->
  Update m (KeyMsg k) = Ok (m, CmdNil).
Proof.
  intros Hk. unfold Update.
  repeat match goal with
  | |- context [is_key k ?ks] =>
      let E := fresh "E" in
      destruct (is_key k ks) eqn:E;
      [exfalso; apply is_key_In in E; apply Hk; simpl in E |- *; tauto|]
  end.
  reflexivity.
Qed.

Lemma key_in_switch_dec (k : string) :
  {In k ["g"; "G"; "j"; "down"; "k"; "up"; "ctrl+c"; "q";
         "backspace"; "h"; "left"; "l"; "right"; "enter"]} +
  {~ In k ["g"; "G"; "j"; "down"; "k"; "up"; "ctrl+c"; "q";
           "backspace"; "h"; "left"; "l"; "right"; "enter"]}.
Proof. apply in_dec. apply string_dec. Qed.

Lemma index_out_of_range {A : Type} (s : list A) (i : Z) :
  ~ 0 <= i < Z.of_nat (List.length s) -> index s i = Panic.
Proof.
  intros H. unfold index.
  destruct (Z.ltb_spec i 0); [reflexivity|].
  destruct (Z.leb_spec (Z.of_nat (List.length s)) i); [reflexivity|]. lia.
Qed.

(** The [l]/[right]/[enter] case as a whole. *)
Lemma Update_open_any (m : model) (k : string) :
  In k ["l"; "right"; "enter"] ->
  Update m (KeyMsg k) =
  if len m =? 0 then Ok (m, CmdNil)
  else
    let* f := index (files m) (selected m) in
    if IsDir f then
      Ok (descend m f, readDir (filepath.Join [path m; Name f]))
    else if String.eqb k "enter" then
      Ok (set_quitting true (set_path (filepath.Join [path m; Name f]) m), Quit)
    else Ok (m, CmdNil).
Proof.
  intros Hk. simpl in Hk. destruct Hk as [<-|[<-|[<-|[]]]];
    unfold Update; simpl is_key; cbv iota;
    destruct (len m =? 0); try reflexivity;
    destruct (index (files m) (selected m)) as [f|]; try reflexivity;
    simpl bind; destruct (IsDir f); reflexivity.
Qed.

(** ** Termination *)

(** X8: The session ends only by a cancel key, which empties the path, or by
    the confirm key on a plain file, which records the joined path; no
    other message makes [Update] return [tea.Quit]. *)
Theorem quit_only_by_cancel_or_confirm (m m' : model) (msg : Msg) :
  Update m msg = Ok (m', Quit) ->
  exists k, msg = KeyMsg k /\
    ((In k ["ctrl+c"; "q"] /\ m' = set_quitting true (set_path "" m)) \/
     (k = "enter" /\ exists f,
        at_cursor m f /\ IsDir f = false /\
        m' = set_quitting true
               (set_path (filepath.Join [path m; Name f]) m))).
Proof.
  destruct msg as [fs|w h|k|]; try (simpl; intros E; discriminate).
  intros E. exists k. split; [reflexivity|].
  destruct (key_in_switch_dec k) as [Hin|Hout].
  2:{ rewrite (Update_other_key m k Hout) in E. discriminate. }
  simpl in Hin.
  destruct Hin as [<-|[<-|[<-|[<-|[<-|[<-|[<-|[<-|[<-|[<-|[<-|Hopen]]]]]]]]]]];
    try (rewrite ?Update_g, ?Update_G in E; discriminate);
    try (rewrite Update_down in E by (simpl; auto); discriminate);
    try (rewrite Update_up in E by (simpl; auto); discriminate);
    try (rewrite Update_cancel in E by (simpl; auto);
         inversion E; left; split; [simpl; auto|reflexivity]);
    try (rewrite Update_back in E by (simpl; auto); cbv zeta in E;
         match type of E with
         | bind ?r _ = _ => destruct r; simpl in E; discriminate
         end).
  assert (Hk : In k ["l"; "right"; "enter"]) by (simpl; tauto).
  rewrite (Update_open_any m k Hk) in E.
  destruct (len m =? 0); [discriminate|].
  destruct (index (files m) (selected m)) as [f|] eqn:Hf; [|discriminate].
  simpl in E. destruct (IsDir f) eqn:Hd; [discriminate|].
  destruct (String.eqb k "enter") eqn:Hk'; [|discriminate].
  apply String.eqb_eq in Hk'. inversion E. right.
  split; [exact Hk'|]. exists f. auto.
Qed.

Lemma quit_only_by_cancel_or_confirm_witness :
  exists k, KeyMsg "q" = KeyMsg k /\
    ((In k ["ctrl+c"; "q"] /\
      set_quitting true (set_path "" on_report)
        = set_quitting true (set_path "" on_report)) \/
     (k = "enter" /\ exists f,
        at_cursor on_report f /\ IsDir f = false /\
        set_quitting true (set_path "" on_report)
          = set_quitting true
              (set_path (filepath.Join [path on_report; Name f]) on_report))).
Proof.
  exact (quit_only_by_cancel_or_confirm on_report
           (set_quitting true (set_path "" on_report)) (KeyMsg "q") eq_refl).
Defined.

(** ** The history stacks *)

(** View messages leave the history, the path and the quitting flag
    alone, and issue no command. *)
Lemma view_msg_keeps_history (m : model) (msg : Msg) :
  is_view_msg msg ->
  exists m',
    Update m msg = Ok (m', CmdNil) /\
    selectedStack m' = selectedStack m /\ minStack m' = minStack m /\
    maxStack m' = maxStack m /\ path m' = path m /\
    quitting m' = quitting m.
Proof.
  destruct msg as [fs|w h|k|]; intros Hv; simpl in Hv.
  - eexists. split; [reflexivity|]. simpl. auto.
  - eexists. split; [reflexivity|]. destruct (autoHeight m); simpl; auto.
  - destruct Hv as [<-|[<-|[<-|[<-|[<-|[<-|[]]]]]]].
    + eexists. split; [reflexivity|]. simpl. auto.
    + eexists. split; [reflexivity|]. simpl. auto.
    + rewrite (Update_down m "j") by (simpl; auto).
      eexists. split; [reflexivity|]. cbv zeta.
      destruct (_ >=? _); destruct (_ >? _); simpl; auto.
    + rewrite (Update_down m "down") by (simpl; auto).
      eexists. split; [reflexivity|]. cbv zeta.
      destruct (_ >=? _); destruct (_ >? _); simpl; auto.
    + rewrite (Update_up m "k") by (simpl; auto).
      eexists. split; [reflexivity|]. cbv zeta.
      destruct (_ <? 0); destruct (_ <? min m); simpl; auto.
    + rewrite (Update_up m "up") by (simpl; auto).
      eexists. split; [reflexivity|]. cbv zeta.
      destruct (_ <? 0); destruct (_ <? min m); simpl; auto.
  - eexists. split; [reflexivity|]. auto.
Qed.

(** The ascend keys, by the state of the stacks. *)
Lemma Update_back_cases (m : model) (k : string) :
  In k ["backspace"; "h"; "left"] ->
  let m0 := set_path (filepath.Dir (path m)) m in
  (selectedStack m = [] /\
   Update m (KeyMsg k) =
     Ok (set_max (wrap (height m - 1)) (set_min 0 (set_selected 0 m0)),
         readDir (filepath.Dir (path m)))) \/
  (exists s ss mn mns mx mxs,
     selectedStack m = s :: ss /\ minStack m = mn :: mns /\
     maxStack m = mx :: mxs /\
     Update m (KeyMsg k) =
       Ok (set_max mx (set_min mn (set_selected s (set_stacks ss mns mxs m0))),
           readDir (filepath.Dir (path m)))) \/
  (selectedStack m <> [] /\ (minStack m = [] \/ maxStack m = []) /\
   Update m (KeyMsg k) = Panic).
Proof.
  intros Hk m0. rewrite (Update_back m k Hk). cbv zeta. fold m0.
  unfold popView, stack.Length, stack.Pop. simpl selectedStack.
  simpl minStack. simpl maxStack.
  destruct (selectedStack m) as [|s ss] eqn:Es.
  - left. split; reflexivity.
  - right.
    replace (Z.of_nat (List.length (s :: ss)) >? 0) with true
      by (symmetry; rewrite Z.gtb_ltb; apply Z.ltb_lt; simpl List.length; lia).
    destruct (minStack m) as [|mn mns] eqn:Emn.
    + right. split; [discriminate|]. split; [auto|reflexivity].
    + destruct (maxStack m) as [|mx mxs] eqn:Emx.
      * right. split; [discriminate|]. split; [auto|reflexivity].
      * left. exists s, ss, mn, mns, mx, mxs. repeat split.
Qed.

(** X6: Whatever the message, if the three history stacks have equal depth
    before [Update] they have equal depth after it. *)
Theorem stacks_stay_aligned (m m' : model) (msg : Msg) (c : Cmd) :
  stacks_aligned m -> Update m msg = Ok (m', c) -> stacks_aligned m'.
Proof.
  unfold stacks_aligned. intros Ha E.
  assert (Hview : is_view_msg msg ->
            List.length (selectedStack m') = List.length (minStack m') /\
            List.length (minStack m') = List.length (maxStack m')).
  { intros Hv. destruct (view_msg_keeps_history m msg Hv)
      as (m1 & E1 & H1 & H2 & H3 & _).
    rewrite E1 in E. inversion E; subst. rewrite H1, H2, H3. exact Ha. }
  destruct msg as [fs|w h|k|]; try (apply Hview; exact I).
  destruct (key_in_switch_dec k) as [Hin|Hout].
  2:{ rewrite (Update_other_key m k Hout) in E. inversion E; subst. exact Ha. }
  simpl in Hin.
  destruct Hin as [<-|[<-|[<-|[<-|[<-|[<-|Hrest]]]]]];
    try (apply Hview; simpl; tauto).
  destruct Hrest as [Hc|[Hc|Hrest]];
    try (rewrite (Update_cancel m k) in E by (simpl; auto);
         inversion E; subst; simpl; exact Ha).
  assert (Hcases : In k ["backspace"; "h"; "left"] \/
                   In k ["l"; "right"; "enter"]) by (simpl; tauto).
  destruct Hcases as [Hb|Ho].
  - destruct (Update_back_cases m k Hb)
      as [[Es Eu]|[(s & ss & mn & mns & mx & mxs & Es & Emn & Emx & Eu)|(_ & _ & Eu)]];
      rewrite Eu in E; inversion E; subst; simpl.
    + exact Ha.
    + rewrite Es, Emn, Emx in Ha. simpl in Ha. lia.
  - rewrite (Update_open_any m k Ho) in E.
    destruct (len m =? 0); [inversion E; subst; exact Ha|].
    destruct (index (files m) (selected m)) as [f|]; [|discriminate].
    simpl in E. destruct (IsDir f).
    + inversion E; subst. simpl. lia.
    + destruct (String.eqb k "enter"); inversion E; subst; simpl; exact Ha.
Qed.

Lemma stacks_stay_aligned_witness :
  stacks_aligned (descend on_subdir (entry "c" true)).
Proof.
  apply (stacks_stay_aligned on_subdir _ (KeyMsg "l") (readDir "/srv/c")).
  - split; reflexivity.
  - reflexivity.
Defined.

(** X7: With history stacks of equal depth, [Update] panics in one case only:
    an [l], [right] or [enter] key on a non-empty entry list whose cursor
    is not an index of the list. *)
Theorem panic_only_on_stray_cursor (m : model) (msg : Msg) :
  stacks_aligned m ->
  (Update m msg = Panic <->
   exists k, msg = KeyMsg k /\ In k ["l"; "right"; "enter"] /\
             len m <> 0 /\ ~ cursor_in_range m).
Proof.
  intros Ha. split.
  - intros E.
    assert (Hview : is_view_msg msg -> False).
    { intros Hv. destruct (view_msg_keeps_history m msg Hv) as (m1 & E1 & _).
      rewrite E1 in E. discriminate. }
    destruct msg as [fs|w h|k|]; try (exfalso; apply Hview; exact I).
    exists k. split; [reflexivity|].
    destruct (key_in_switch_dec k) as [Hin|Hout].
    2:{ rewrite (Update_other_key m k Hout) in E. discriminate. }
    simpl in Hin.
    destruct Hin as [<-|[<-|[<-|[<-|[<-|[<-|Hrest]]]]]];
      try (exfalso; apply Hview; simpl; tauto).
    destruct Hrest as [Hc|[Hc|Hrest]];
      try (rewrite (Update_cancel m k) in E by (simpl; auto); discriminate).
    assert (Hcases : In k ["backspace"; "h"; "left"] \/
                     In k ["l"; "right"; "enter"]) by (simpl; tauto).
    destruct Hcases as [Hb|Ho].
    + exfalso. destruct (Update_back_cases m k Hb)
        as [[Es Eu]|[(s & ss & mn & mns & mx & mxs & Es & Emn & Emx & Eu)|(Hs & He & _)]];
        try (rewrite Eu in E; discriminate).
      destruct Ha as [H1 H2].
      destruct (selectedStack m); [congruence|].
      destruct He as [He|He]; rewrite He in *; simpl in *; lia.
    + split; [exact Ho|].
      rewrite (Update_open_any m k Ho) in E.
      destruct (Z.eqb_spec (len m) 0) as [|Hne]; [discriminate|].
      split; [exact Hne|]. intros Hr.
      destruct (index_in_range (files m) (selected m) Hr) as [f Hf].
      rewrite Hf in E. simpl in E.
      destruct (IsDir f); [discriminate|].
      destruct (String.eqb k "enter"); discriminate.
  - intros (k & -> & Ho & Hne & Hr).
    rewrite (Update_open_any m k Ho).
    destruct (Z.eqb_spec (len m) 0) as [|_]; [contradiction|].
    rewrite index_out_of_range by exact Hr. reflexivity.
Qed.

Lemma panic_only_on_stray_cursor_witness :
  Update (set_selected 7 on_subdir) (KeyMsg "enter") = Panic <->
  exists k, KeyMsg "enter" = KeyMsg k /\ In k ["l"; "right"; "enter"] /\
            len (set_selected 7 on_subdir) <> 0 /\
            ~ cursor_in_range (set_selected 7 on_subdir).
Proof.
  apply (panic_only_on_stray_cursor (set_selected 7 on_subdir) (KeyMsg "enter")).
  split; reflexivity.
Defined.

Lemma run_app (m : model) (a b : list Msg) :
  run m (a ++ b) = let* m' := run m a in run m' b.
Proof.
  revert m. induction a as [|msg a IH]; intros m; [reflexivity|].
  cbn [app run]. destruct (Update m msg) as [[m1 c]|]; [|reflexivity].
  cbn [bind]. apply IH.
Qed.

Lemma run_view_msgs (msgs : list Msg) :
  Forall is_view_msg msgs ->
  forall m, exists m',
    run m msgs = Ok m' /\
    selectedStack m' = selectedStack m /\ minStack m' = minStack m /\
    maxStack m' = maxStack m.
Proof.
  induction 1 as [|msg msgs Hv _ IH]; intros m.
  - exists m. simpl. auto.
  - destruct (view_msg_keeps_history m msg Hv) as (m1 & E1 & H1 & H2 & H3 & _).
    destruct (IH m1) as (m' & Er & H1' & H2' & H3').
    exists m'. cbn [run]. rewrite E1. cbn [bind].
    rewrite H1', H2', H3', H1, H2, H3. auto.
Qed.

(** X3: Descend on a directory, then any number of loads, resizes, jumps and
    moves in the child directory, then ascend: the cursor, min and max
    from before the descend come back, and so does the history. *)
Theorem descend_browse_ascend
  (m : model) (f : DirEntry) (kd ka : string) (msgs : list Msg) :
  at_cursor m f -> IsDir f = true ->
  In kd ["l"; "right"; "enter"] -> In ka ["backspace"; "h"; "left"] ->
  Forall is_view_msg msgs ->
  exists m',
    run m (KeyMsg kd :: msgs ++ [KeyMsg ka]) = Ok m' /\
    (selected m', min m', max m') = (selected m, min m, max m) /\
    (selectedStack m', minStack m', maxStack m') =
      (selectedStack m, minStack m, maxStack m).
Proof.
  intros Hf Hd Hkd Hka Hv.
  cbn [run]. rewrite (Update_open m f kd Hkd Hf), Hd. cbn [bind].
  destruct (run_view_msgs msgs Hv (descend m f)) as (m1 & Er & H1 & H2 & H3).
  rewrite run_app, Er. cbn [bind run].
  destruct (Update_back_cases m1 ka Hka)
    as [[Es _]|[(s & ss & mn & mns & mx & mxs & Es & Emn & Emx & Eu)|(_ & He & _)]].
  - rewrite H1 in Es. discriminate.
  - rewrite Eu. cbn [bind]. eexists. split; [reflexivity|].
    rewrite H1 in Es. rewrite H2 in Emn. rewrite H3 in Emx.
    simpl in Es, Emn, Emx. inversion Es. inversion Emn. inversion Emx.
    simpl. split; reflexivity.
  - rewrite H2, H3 in He. destruct He; discriminate.
Qed.

Lemma descend_browse_ascend_witness :
  exists m',
    run on_subdir
      (KeyMsg "enter" ::
       [readDirMsg [entry "x" false; entry "y" false]; KeyMsg "j";
        WindowSizeMsg 80 30; KeyMsg "G"] ++ [KeyMsg "backspace"]) = Ok m' /\
    (selected m', min m', max m') = (2, 1, 3) /\
    (selectedStack m', minStack m', maxStack m') = ([], [], []).
Proof.
  apply (descend_browse_ascend on_subdir (entry "c" true) "enter" "backspace").
  - reflexivity.
  - reflexivity.
  - simpl; auto.
  - simpl; auto.
  - repeat (apply Forall_cons; [simpl; tauto|]). apply Forall_nil.
Defined.

(** ** The window *)

Lemma is_move_cases (msg : Msg) :
  is_move msg ->
  exists k, msg = KeyMsg k /\ (In k ["j"; "down"] \/ In k ["k"; "up"]).
Proof.
  destruct msg as [| |k|]; simpl; try contradiction.
  intros H. exists k. split; [reflexivity|]. tauto.
Qed.

(** One move on a non-empty list slides the window without resizing it. *)
Lemma move_keeps_window_height (m : model) (msg : Msg) :
  is_move msg -> wf m -> ViewInv m -> 0 < len m ->
  exists m',
    Update m msg = Ok (m', CmdNil) /\
    wf m' /\ ViewInv m' /\ files m' = files m /\
    max m' - min m' = max m - min m.
Proof.
  intros Hmv Hwf Hinv Hpos.
  destruct (is_move_cases msg Hmv) as (k & -> & [Hk|Hk]).
  - destruct (down_keeps_inv m k Hk Hwf Hinv Hpos) as (m' & E & Hwf' & Hinv' & Hf).
    exists m'. repeat split; try assumption; try apply Hwf'; try apply Hinv'.
    destruct Hwf as (Hlen & Hs & Hmn & Hmx & Hh).
    use_view_inv Hinv; [lia|].
    rewrite (Update_down m k Hk) in E. cbv zeta in E.
    rewrite (wrap_id (selected m + 1)) in E by int_range.
    rewrite Z.geb_leb, Z.gtb_ltb in E.
    destruct (Z.leb_spec (len m) (selected m + 1));
      [rewrite (wrap_id (len m - 1)) in E by int_range|];
      match type of E with context [?a <? ?b] =>
        destruct (Z.ltb_spec a b) end;
      try rewrite !wrap_id in E by int_range;
      inversion E; subst; simpl; lia.
  - destruct (up_keeps_inv m k Hk Hwf Hinv) as (m' & E & Hwf' & Hinv' & Hf).
    exists m'. repeat split; try assumption; try apply Hwf'; try apply Hinv'.
    destruct Hwf as (Hlen & Hs & Hmn & Hmx & Hh).
    use_view_inv Hinv; [lia|].
    rewrite (Update_up m k Hk) in E. cbv zeta in E.
    rewrite (wrap_id (selected m - 1)) in E by int_range.
    destruct (Z.ltb_spec (selected m - 1) 0);
      match type of E with context [?a <? min m] =>
        destruct (Z.ltb_spec a (min m)) end;
      try rewrite !wrap_id in E by int_range;
      inversion E; subst; simpl; lia.
Qed.

(** X1: On a non-empty list, after any sequence of move-down and move-up
    events the window has the size it started with, and the cursor is
    still inside it and inside the list. *)
Theorem moves_keep_window_height (msgs : list Msg) (m : model) :
  Forall is_move msgs -> wf m -> ViewInv m -> 0 < len m ->
  exists m',
    run m msgs = Ok m' /\
    max m' - min m' = max m - min m /\
    min m' <= selected m' <= max m' /\ 0 <= selected m' < len m.
Proof.
  intros Hall. revert m.
  induction Hall as [|msg msgs Hmv _ IH]; intros m Hwf Hinv Hpos.
  - exists m. split; [reflexivity|]. split; [reflexivity|].
    use_view_inv Hinv; [lia|]. split; assumption.
  - destruct (move_keeps_window_height m msg Hmv Hwf Hinv Hpos)
      as (m1 & E1 & Hwf1 & Hinv1 & Hf1 & Hw1).
    assert (Hl : len m1 = len m) by (unfold len; rewrite Hf1; reflexivity).
    destruct (IH m1 Hwf1 Hinv1) as (m' & Er & Hw & Hc & Hr); [lia|].
    exists m'. cbn [run]. rewrite E1. cbn [bind].
    repeat split; try assumption; lia.
Qed.

Lemma moves_keep_window_height_witness :
  exists m',
    run scrolled [KeyMsg "j"; KeyMsg "down"; KeyMsg "k"; KeyMsg "up"; KeyMsg "up";
                  KeyMsg "k"; KeyMsg "k"; KeyMsg "k"] = Ok m' /\
    max m' - min m' = max scrolled - min scrolled /\
    min m' <= selected m' <= max m' /\ 0 <= selected m' < len scrolled.
Proof.
  apply (moves_keep_window_height _ scrolled).
  - repeat (apply Forall_cons; [simpl; tauto|]). apply Forall_nil.
  - unfold wf, in_int, min_int, max_int, len. simpl. lia.
  - unfold ViewInv, len. simpl. lia.
  - unfold len. simpl. lia.
Defined.

(** X2: On a non-empty list under a viewport of at least one line, the jump
    keys put the cursor inside the window and inside the list, and make
    the window exactly [height] entries long. *)
Theorem jumps_establish_invariant (m : model) (k : string) :
  In k ["g"; "G"] -> wf m -> 0 < len m -> 1 <= height m ->
  exists m',
    Update m (KeyMsg k) = Ok (m', CmdNil) /\
    wf m' /\ ViewInv m' /\ max m' - min m' = height m - 1.
Proof.
  intros Hk (Hlen & Hs & Hmn & Hmx & Hh) Hpos Hht.
  assert (Hne : (len m =? 0) = false) by (apply Z.eqb_neq; lia).
  simpl in Hk. destruct Hk as [<-|[<-|[]]].
  - rewrite Update_g. eexists. split; [reflexivity|].
    rewrite wrap_id by int_range.
    unfold wf, ViewInv, len in *. simpl. rewrite Hne.
    repeat split; try int_range.
  - rewrite Update_G. eexists. split; [reflexivity|].
    rewrite !wrap_id by int_range.
    unfold wf, ViewInv, len in *. simpl. rewrite Hne.
    repeat split; try int_range.
Qed.

Lemma jumps_establish_invariant_witness :
  exists m',
    Update scrolled (KeyMsg "G") = Ok (m', CmdNil) /\
    wf m' /\ ViewInv m' /\ max m' - min m' = height scrolled - 1.
Proof.
  apply (jumps_establish_invariant scrolled "G").
  - simpl; auto.
  - unfold wf, in_int, min_int, max_int, len. simpl. lia.
  - unfold len. simpl. lia.
  - simpl. lia.
Defined.

(** ** Rendering *)

Import view fixtures.

Lemma indexed_above_window (m : model) (fs : list DirEntry) (i : Z) :
  max m < i ->
  filter (fun p => (min m <=? fst p) && (fst p <=? max m)) (indexed i fs) = [].
Proof.
  revert i. induction fs as [|f fs IH]; intros i Hi; [reflexivity|].
  simpl. replace (i <=? max m) with false by (symmetry; apply Z.leb_gt; lia).
  rewrite Bool.andb_false_r. apply IH. lia.
Qed.

Lemma loop_lines (env : Env) (m : model) (fs : list DirEntry) (i : Z) :
  loop env m i fs =
  lines env m
    (filter (fun p => (min m <=? fst p) && (fst p <=? max m)) (indexed i fs)).
Proof.
  revert i. induction fs as [|f fs IH]; intros i; [reflexivity|].
  cbn [loop indexed filter fst].
  destruct (Z.ltb_spec i (min m)) as [Hlo|Hlo].
  - replace (min m <=? i) with false by (symmetry; apply Z.leb_gt; lia).
    simpl andb. cbv iota. apply IH.
  - replace (min m <=? i) with true by (symmetry; apply Z.leb_le; lia).
    rewrite Z.gtb_ltb. simpl andb.
    destruct (Z.ltb_spec (max m) i) as [Hhi|Hhi].
    + replace (i <=? max m) with false by (symmetry; apply Z.leb_gt; lia).
      rewrite indexed_above_window by lia. reflexivity.
    + replace (i <=? max m) with true by (symmetry; apply Z.leb_le; lia).
      cbn [lines]. rewrite IH. reflexivity.
Qed.

(** Rendering a list of entries panics exactly when [Info] fails for one
    of them. *)
Lemma lines_Panic (env : Env) (m : model) (ps : list (Z * DirEntry)) :
  lines env m ps = Panic <->
  exists i f, In (i, f) ps /\ Info_ok env f = false.
Proof.
  induction ps as [|[i f] ps IH]; cbn [lines].
  - split; [discriminate|]. intros (i & f & [] & _).
  - unfold line. destruct (Info_ok env f) eqn:Ef; cbn [bind].
    + destruct (lines env m ps) as [s|] eqn:El; cbn [bind].
      * split; [discriminate|].
        intros (j & g & [E|Hin] & Hg).
        -- inversion E; subst. congruence.
        -- destruct IH as [_ IH].
           assert (Hp : Ok s = Panic) by (apply IH; exists j, g; auto).
           discriminate.
      * split; [|reflexivity]. intros _.
        destruct IH as [IH _]. destruct (IH eq_refl) as (j & g & Hin & Hg).
        exists j, g. split; [right; exact Hin|exact Hg].
    + split; [|reflexivity]. intros _. exists i, f.
      split; [left; reflexivity|exact Ef].
Qed.

Lemma indexed_In (fs : list DirEntry) (j i : Z) (f : DirEntry) :
  In (i, f) (indexed j fs) <->
  j <= i /\ nth_error fs (Z.to_nat (i - j)) = Some f.
Proof.
  revert j. induction fs as [|g fs IH]; intros j; simpl.
  - split; [contradiction|]. intros [_ H].
    destruct (Z.to_nat (i - j)); discriminate.
  - rewrite IH. split.
    + intros [E|[Hle Hn]].
      * inversion E; subst. split; [lia|].
        replace (i - i) with 0 by lia. reflexivity.
      * split; [lia|].
        replace (Z.to_nat (i - j)) with (S (Z.to_nat (i - (j + 1)))) by lia.
        exact Hn.
    + intros [Hle Hn]. destruct (Z.eq_dec i j) as [->|Hne].
      * left. replace (j - j) with 0 in Hn by lia. simpl in Hn.
        inversion Hn. reflexivity.
      * right. split; [lia|].
        replace (Z.to_nat (i - j)) with (S (Z.to_nat (i - (j + 1)))) in Hn
          by lia.
        exact Hn.
Qed.

Lemma index_Ok_nth {A : Type} (s : list A) (i : Z) (a : A) :
  index s i = Ok a <-> 0 <= i /\ nth_error s (Z.to_nat i) = Some a.
Proof.
  unfold index. split.
  - destruct (Z.ltb_spec i 0); [discriminate|].
    destruct (Z.leb_spec (Z.of_nat (List.length s)) i); [discriminate|].
    simpl. destruct (nth_error s (Z.to_nat i)); [|discriminate].
    intros E. inversion E. auto.
  - intros [Hi Hn].
    assert (Hlt : (Z.to_nat i < List.length s)%nat)
      by (apply nth_error_Some; congruence).
    destruct (Z.ltb_spec i 0); [lia|].
    destruct (Z.leb_spec (Z.of_nat (List.length s)) i); [lia|].
    simpl. rewrite Hn. reflexivity.
Qed.

(** X11: While browsing a non-empty list, [View] renders the entries whose
    index lies in [min..max], in list order, one line each, and nothing
    else: the [break] of the loop drops no entry of the window, and no
    entry outside it is looked at.  It panics exactly when [Info] fails
    for an entry of the window. *)
Theorem View_renders_window (env : Env) (m : model) :
  quitting m = false -> len m <> 0 ->
  View env m = lines env m (window m) /\
  (forall i f, In (i, f) (window m) <->
               index (files m) i = Ok f /\ min m <= i <= max m) /\
  (View env m = Panic <->
   exists i f, index (files m) i = Ok f /\ min m <= i <= max m /\
               Info_ok env f = false).
Proof.
  intros Hq Hne.
  assert (HV : View env m = lines env m (window m)).
  { unfold View, window. rewrite Hq.
    destruct (Z.eqb_spec (len m) 0); [contradiction|]. apply loop_lines. }
  assert (HW : forall i f, In (i, f) (window m) <->
                 index (files m) i = Ok f /\ min m <= i <= max m).
  { intros i f. unfold window. rewrite filter_In, indexed_In, index_Ok_nth.
    simpl fst. rewrite Bool.andb_true_iff, !Z.leb_le, Z.sub_0_r. tauto. }
  split; [exact HV|]. split; [exact HW|].
  rewrite HV, lines_Panic. split.
  - intros (i & f & Hin & Hf). apply HW in Hin. exists i, f. tauto.
  - intros (i & f & Hi & Hr & Hf). exists i, f. split; [|exact Hf].
    apply HW. tauto.
Qed.

Lemma View_renders_window_witness :
  View plain_env scrolled = lines plain_env scrolled (window scrolled) /\
  (forall i f, In (i, f) (window scrolled) <->
               index (files scrolled) i = Ok f /\
               min scrolled <= i <= max scrolled) /\
  (View plain_env scrolled = Panic <->
   exists i f, index (files scrolled) i = Ok f /\
               min scrolled <= i <= max scrolled /\
               Info_ok plain_env f = false).
Proof.
  apply (View_renders_window plain_env scrolled).
  - reflexivity.
  - unfold len. simpl. lia.
Defined.

(* ===================================================================== *)
(** * Further properties of the loader *)
(* ===================================================================== *)

Lemma sorted_perm_unique {A : Type} (R : A -> A -> Prop) (l1 : list A) :
  forall l2,
    StronglySorted R l1 -> StronglySorted R l2 -> Permutation l1 l2 ->
    (forall x y, In x l1 -> In y l1 -> R x y -> R y x -> x = y) ->
    l1 = l2.
Proof.
  induction l1 as [|x l1 IH]; intros l2 H1 H2 Hp Hanti.
  - apply Permutation_nil in Hp. congruence.
  - destruct l2 as [|y l2].
    { apply Permutation_sym, Permutation_nil in Hp. discriminate. }
    inversion H1 as [|? ? Hs1 Hx]; subst.
    inversion H2 as [|? ? Hs2 Hy]; subst.
    assert (Hxy : x = y).
    { assert (Hin : In x (y :: l2))
        by (eapply Permutation_in; [exact Hp|left; reflexivity]).
      destruct Hin as [E|Hin]; [congruence|].
      assert (Hin' : In y (x :: l1))
        by (eapply Permutation_in;
            [apply Permutation_sym; exact Hp|left; reflexivity]).
      destruct Hin' as [E|Hin']; [exact E|].
      rewrite Forall_forall in Hx, Hy.
      apply Hanti; [left; reflexivity|right; exact Hin'|auto|auto]. }
    subst y. f_equal. apply IH; try assumption.
    + eapply Permutation_cons_inv; exact Hp.
    + intros a b Ha Hb. apply Hanti; right; assumption.
Qed.

Lemma In_map_injective {A B : Type} (f : A -> B) (l : list A) (x y : A) :
  NoDup (map f l) -> In x l -> In y l -> f x = f y -> x = y.
Proof.
  induction l as [|a l IH]; simpl; [contradiction|].
  intros Hnd Hx Hy E. inversion Hnd as [|? ? Hnot Hnd']; subst.
  destruct Hx as [->|Hx], Hy as [->|Hy]; auto.
  - exfalso. apply Hnot. rewrite E. apply in_map. exact Hy.
  - exfalso. apply Hnot. rewrite <- E. apply in_map. exact Hx.
Qed.

Lemma less_antisym_on_names (x y : DirEntry) :
  less x y = false -> less y x = false ->
  Name x = Name y.
Proof.
  unfold less. destruct (IsDir x), (IsDir y); simpl; try discriminate;
    unfold String.ltb; intros H1 H2;
    destruct (String.compare (Name x) (Name y)) eqn:E; try discriminate;
    try (apply String.compare_eq_iff; exact E);
    apply string_compare_gt_lt in E; rewrite E in H2; discriminate.
Qed.

(** X10: When the names of a directory's entries are distinct, the delivered
    list is determined by the set of entries alone: it does not depend on
    the order in which they were read, nor on which sorting routine that
    meets the contract of [sort.Slice] is used. *)
Theorem loader_result_unique
  (sort1 sort2 : (DirEntry -> DirEntry -> bool) -> list DirEntry -> list DirEntry)
  (ReadDir1 ReadDir2 : string -> option (list DirEntry))
  (dir : string) (es1 es2 : list DirEntry) :
  sort.Slice_contract sort1 -> sort.Slice_contract sort2 ->
  ReadDir1 dir = Some es1 -> ReadDir2 dir = Some es2 ->
  Permutation es1 es2 -> NoDup (map Name es1) ->
  run_readDir sort1 ReadDir1 dir = run_readDir sort2 ReadDir2 dir.
Proof.
  intros Hc1 Hc2 Hr1 Hr2 Hp Hnd. unfold run_readDir. rewrite Hr1, Hr2.
  destruct (Hc1 less es1) as [Hp1 Hs1]. destruct (Hc2 less es2) as [Hp2 Hs2].
  f_equal.
  apply (sorted_perm_unique (fun x y => less y x = false)).
  - apply sorted_by_strongly; [|apply Hs1]; apply less_strict_weak.
  - apply sorted_by_strongly; [|apply Hs2]; apply less_strict_weak.
  - eapply perm_trans; [apply Permutation_sym; exact Hp1|].
    eapply perm_trans; [exact Hp|exact Hp2].
  - intros x y Hx Hy Hxy Hyx.
    apply (In_map_injective Name es1); try assumption.
    + eapply Permutation_in; [apply Permutation_sym; exact Hp1|exact Hx].
    + eapply Permutation_in; [apply Permutation_sym; exact Hp1|exact Hy].
    + apply less_antisym_on_names; assumption.
Qed.

Lemma loader_result_unique_witness :
  run_readDir sort.insertion_sort (fun _ => Some listing) "/src/gum"
  = run_readDir sort.insertion_sort (fun _ => Some (rev listing)) "/src/gum".
Proof.
  apply (loader_result_unique sort.insertion_sort sort.insertion_sort
           (fun _ => Some listing) (fun _ => Some (rev listing))
           "/src/gum" listing (rev listing)).
  - apply insertion_sort_contract.
  - apply insertion_sort_contract.
  - reflexivity.
  - reflexivity.
  - apply Permutation_rev.
  - simpl. repeat (constructor; [simpl; intuition discriminate|]).
    constructor.
Defined.

(* ===================================================================== *)
(** * Further properties of the field splitter and of [Run] *)
(* ===================================================================== *)

Import tablerun.

(** ** Carriage returns *)

Lemma ReplaceAll_removes (s : string) (old : ascii) :
  has_byte old (ReplaceAll s old "") = false.
Proof.
  induction s as [|c s IH]; simpl; [reflexivity|].
  destruct (Ascii.eqb c old) eqn:E; simpl; [exact IH|].
  rewrite E. exact IH.
Qed.

(** A step either cuts a field at [i] or leaves [res] and [beg] alone. *)
Lemma split_step_cases (s delim : string) (res : list string) (beg : nat)
  (ins : bool) (i : nat) :
  (String.eqb (string_of_byte (byte_at s i)) delim = true /\ ins = false /\
   split_step s delim (res, beg, ins) i =
     ((res ++ [ReplaceAll (slice s beg i) CR ""])%list, S i, false)) \/
  (String.eqb (string_of_byte (byte_at s i)) delim && negb ins = false /\
   exists ins', split_step s delim (res, beg, ins) i = (res, beg, ins')).
Proof.
  unfold split_step.
  destruct (String.eqb (string_of_byte (byte_at s i)) delim) eqn:E;
    destruct ins; simpl;
    try (left; repeat split; reflexivity);
    right; (split; [reflexivity|]);
    destruct (Ascii.eqb (byte_at s i) quote); eauto;
    destruct ((0 <? i)%nat && negb (Ascii.eqb (byte_at s (i - 1)) backslash));
    eauto.
Qed.

Lemma split_fold_no_CR (s delim : string) (idx : list nat) :
  forall res beg ins,
    Forall (fun f => has_byte CR f = false) res ->
    Forall (fun f => has_byte CR f = false)
      (fst (fst (fold_left (split_step s delim) idx (res, beg, ins)))).
Proof.
  induction idx as [|i idx IH]; intros res beg ins Hres; [exact Hres|].
  cbn [fold_left].
  destruct (split_step_cases s delim res beg ins i)
    as [(_ & _ & E)|(_ & ins' & E)]; rewrite E.
  - apply IH. apply Forall_app. split; [exact Hres|].
    constructor; [apply ReplaceAll_removes|constructor].
  - apply IH. exact Hres.
Qed.

(** X13: No field returned by [splitAtDelimiter] contains a carriage return,
    whatever the line and the delimiter. *)
Theorem split_fields_have_no_CR (s delim : string) :
  Forall (fun f => has_byte CR f = false) (splitAtDelimiter s delim).
Proof.
  unfold splitAtDelimiter.
  pose proof (split_fold_no_CR s delim (seq 0 (String.length s)) [] O false
                (Forall_nil _)) as H.
  destruct (fold_left (split_step s delim) (seq 0 (String.length s))
              ([], O, false)) as [[res beg] ins].
  simpl in H. apply Forall_app. split; [exact H|].
  constructor; [apply ReplaceAll_removes|constructor].
Qed.

(** ** Delimiters that cannot match *)

Lemma split_fold_no_match (s delim : string) (idx : list nat) :
  (forall b, string_of_byte b <> delim) ->
  forall ins, exists ins',
    fold_left (split_step s delim) idx ([], O, ins) = ([], O, ins').
Proof.
  intros Hno. induction idx as [|i idx IH]; intros ins;
    [exists ins; reflexivity|].
  cbn [fold_left].
  destruct (split_step_cases s delim [] O ins i)
    as [(E & _)|(_ & ins' & E)].
  - apply String.eqb_eq in E. exfalso. exact (Hno _ E).
  - rewrite E. apply IH.
Qed.

Lemma string_of_byte_length (b : ascii) :
  String.length (string_of_byte b) = 1%nat \/
  String.length (string_of_byte b) = 2%nat.
Proof.
  unfold string_of_byte. destruct (N_of_ascii b <? 128)%N; simpl; auto.
Qed.

(** X14: A delimiter that is not [string(b)] for any byte [b] (the empty
    string, or any delimiter of three or more bytes, for instance) never
    splits: the line comes back as one field, less its carriage
    returns. *)
Theorem unmatchable_delimiter_never_splits (s delim : string) :
  (forall b, string_of_byte b <> delim) ->
  splitAtDelimiter s delim = [ReplaceAll s CR ""].
Proof.
  intros Hno. unfold splitAtDelimiter.
  destruct (split_fold_no_match s delim (seq 0 (String.length s)) Hno false)
    as [ins' E].
  rewrite E. unfold slice_from, slice. simpl app.
  rewrite Nat.sub_0_r, substring_all. reflexivity.
Qed.

Lemma unmatchable_delimiter_never_splits_witness :
  splitAtDelimiter "a | b | c" " | " = [ReplaceAll "a | b | c" CR ""].
Proof.
  apply (unmatchable_delimiter_never_splits "a | b | c" " | ").
  intros b E. pose proof (string_of_byte_length b) as H.
  rewrite E in H. simpl in H. lia.
Defined.

(** X20: On a line without double quote and without carriage return,
    splitting and joining with the same delimiter gives the line back, and
    the list of fields is not empty, for every delimiter that is not the
    two-byte encoding [string(b)] of a byte [b] from 128 on: every
    one-byte delimiter, the empty one, and every longer one. *)
Theorem split_then_join_round_trip (s delim : string) :
  has_byte quote s = false -> has_byte CR s = false ->
  (forall b, (128 <= N_of_ascii b)%N -> string_of_byte b <> delim) ->
  Join (splitAtDelimiter s delim) delim = s /\
  splitAtDelimiter s delim <> [].
Proof.
  intros Hq Hcr Hd.
  assert (Hone : (forall b, string_of_byte b <> delim) ->
                 Join (splitAtDelimiter s delim) delim = s /\
                 splitAtDelimiter s delim <> []).
  { intros Hno. rewrite (unmatchable_delimiter_never_splits s delim Hno).
    rewrite (ReplaceAll_absent s CR "" Hcr).
    split; [reflexivity|discriminate]. }
  destruct delim as [|c [|c2 rest]].
  - apply Hone. intros b E. destruct (string_of_byte_length b) as [H|H];
      rewrite E in H; discriminate.
  - apply split_then_join_one_byte; assumption.
  - apply Hone. intros b E.
    destruct (N.ltb_spec (N_of_ascii b) 128) as [Hlt|Hge].
    + unfold string_of_byte in E. apply N.ltb_lt in Hlt. rewrite Hlt in E.
      discriminate.
    + exact (Hd b Hge E).
Qed.

Lemma split_then_join_round_trip_witness :
  Join (splitAtDelimiter "a::b::c" "::") "::" = "a::b::c" /\
  splitAtDelimiter "a::b::c" "::" <> [].
Proof.
  apply (split_then_join_round_trip "a::b::c" "::");
    [reflexivity|reflexivity|].
  intros b _ E.
  destruct b as [[] [] [] [] [] [] [] []]; vm_compute in E; discriminate.
Defined.

(** ** Lines without quotes: the splitter is [strings.Split] *)

Lemma append_nil_r (s : string) : s ++ "" = s.
Proof. induction s as [|c s IH]; simpl; [reflexivity|]. rewrite IH. reflexivity. Qed.

Lemma append_assoc (a b c : string) : (a ++ b) ++ c = a ++ (b ++ c).
Proof.
  induction a as [|x a IH]; simpl; [reflexivity|]. rewrite IH. reflexivity.
Qed.

Lemma substring_zero (s : string) (n : nat) : substring n 0 s = "".
Proof.
  revert n. induction s as [|c s IH]; intros [|n]; simpl; auto.
Qed.

Lemma slice_empty (s : string) (i : nat) : slice s i i = "".
Proof. unfold slice. rewrite Nat.sub_diag. apply substring_zero. Qed.

Lemma slice_from_end (s : string) : slice_from s (String.length s) = "".
Proof. unfold slice_from. apply slice_empty. Qed.

Lemma slice_from_head (s : string) (i : nat) (b : ascii) :
  String.get i s = Some b ->
  slice_from s i = String b (slice_from s (S i)).
Proof.
  intros H. rewrite (slice_from_split s i i b (Nat.le_refl i) H).
  rewrite slice_empty. reflexivity.
Qed.

Lemma slice_snoc (s : string) (beg i : nat) (b : ascii) :
  (beg <= i)%nat -> String.get i s = Some b ->
  slice s beg (S i) = slice s beg i ++ String b "".
Proof.
  unfold slice. revert beg i.
  induction s as [|a s IH]; intros beg i Hle Hget; [destruct i; discriminate|].
  destruct beg as [|beg].
  - destruct i as [|i]; simpl in Hget.
    + inversion Hget; subst. simpl. rewrite substring_zero. reflexivity.
    + specialize (IH O i (Nat.le_0_l i) Hget).
      rewrite !Nat.sub_0_r in IH. simpl. rewrite IH. reflexivity.
  - destruct i as [|i]; [lia|]. simpl in Hget.
    specialize (IH beg i (le_S_n _ _ Hle) Hget).
    replace (S (S i) - S beg)%nat with (S i - beg)%nat by lia.
    replace (S i - S beg)%nat with (i - beg)%nat by lia.
    simpl. exact IH.
Qed.

Lemma Split_cons (b d : ascii) (s : string) :
  Split (String b s) d =
  if Ascii.eqb b d then "" :: Split s d else glue (String b "") (Split s d).
Proof.
  simpl. destruct (Ascii.eqb b d); [reflexivity|].
  destruct (Split s d); reflexivity.
Qed.

Lemma Split_not_nil (s : string) (d : ascii) : Split s d <> [].
Proof.
  destruct s as [|b s]; [discriminate|]. rewrite Split_cons.
  destruct (Ascii.eqb b d); [discriminate|].
  destruct (Split s d); discriminate.
Qed.

Lemma glue_glue (p q : string) (l : list string) :
  l <> [] -> glue p (glue q l) = glue (p ++ q) l.
Proof.
  destruct l as [|x xs]; [congruence|]. intros _. simpl.
  rewrite append_assoc. reflexivity.
Qed.

Lemma string_of_byte_ascii (b d : ascii) :
  (N_of_ascii d < 128)%N ->
  String.eqb (string_of_byte b) (String d "") = Ascii.eqb b d.
Proof.
  intros Hd. destruct (Ascii.eqb_spec b d) as [->|Hne].
  - unfold string_of_byte. apply N.ltb_lt in Hd. rewrite Hd.
    apply String.eqb_refl.
  - destruct (String.eqb (string_of_byte b) (String d "")) eqn:E;
      [|reflexivity].
    apply string_of_byte_one in E. contradiction.
Qed.

(** The loop on a line without quotes, from index [start] on: the fields
    it ends with are those of [strings.Split] on the rest of the line,
    the text since [beg] prepended to the first. *)
Lemma split_loop_Split (s : string) (d : ascii) :
  has_byte quote s = false -> (N_of_ascii d < 128)%N ->
  forall (n start : nat) (res : list string) (beg : nat),
    (start + n = String.length s)%nat -> (beg <= start)%nat ->
    exists res' beg',
      fold_left (split_step s (String d "")) (seq start n) (res, beg, false)
        = (res', beg', false) /\
      (res' ++ [ReplaceAll (slice_from s beg') CR ""])%list =
      (res ++ map (fun f => ReplaceAll f CR "")
                (glue (slice s beg start) (Split (slice_from s start) d)))%list.
Proof.
  intros Hq Hd. induction n as [|n IH]; intros start res beg Hlen Hbeg.
  - exists res, beg. split; [reflexivity|].
    replace start with (String.length s) by lia.
    rewrite slice_from_end. simpl. rewrite append_nil_r. reflexivity.
  - destruct (get_of_lt_length s start) as [b Hb]; [lia|].
    cbn [seq fold_left].
    rewrite (slice_from_head s start b Hb), Split_cons.
    assert (Hbyte : byte_at s start = b) by (unfold byte_at; rewrite Hb; reflexivity).
    destruct (split_step_cases s (String d "") res beg false start)
      as [(E & _ & Estep)|(E & ins' & Estep)].
    + rewrite Hbyte, (string_of_byte_ascii b d Hd) in E. rewrite E.
      rewrite Estep.
      destruct (IH (S start) (res ++ [ReplaceAll (slice s beg start) CR ""])%list
                  (S start)) as (res' & beg' & Ef & Eq); [lia|lia|].
      exists res', beg'. split; [exact Ef|]. rewrite Eq.
      rewrite slice_empty. rewrite <- app_assoc. f_equal.
      destruct (Split (slice_from s (S start)) d) as [|x xs] eqn:Es;
        [exfalso; exact (Split_not_nil _ _ Es)|].
      simpl. rewrite append_nil_r. reflexivity.
    + rewrite Hbyte, (string_of_byte_ascii b d Hd) in E.
      simpl in E. rewrite Bool.andb_true_r in E. rewrite E.
      assert (ins' = false).
      { unfold split_step in Estep. rewrite Hbyte in Estep.
        rewrite (string_of_byte_ascii b d Hd), E in Estep. simpl in Estep.
        rewrite (has_byte_get quote s start b Hq Hb) in Estep.
        inversion Estep. reflexivity. }
      subst ins'. rewrite Estep.
      destruct (IH (S start) res beg) as (res' & beg' & Ef & Eq); [lia|lia|].
      exists res', beg'. split; [exact Ef|]. rewrite Eq.
      rewrite (slice_snoc s beg start b Hbeg Hb).
      rewrite glue_glue by apply Split_not_nil. reflexivity.
Qed.

(** X15: On a line without double quotes, splitting at a one-byte ASCII
    delimiter gives the fields of [strings.Split], each with its carriage
    returns removed. *)
Theorem split_without_quotes_is_Split (s : string) (d : ascii) :
  has_byte quote s = false -> (N_of_ascii d < 128)%N ->
  splitAtDelimiter s (String d "") =
  map (fun f => ReplaceAll f CR "") (Split s d).
Proof.
  intros Hq Hd.
  destruct (split_loop_Split s d Hq Hd (String.length s) O [] O)
    as (res & beg & Ef & Eq); [reflexivity|lia|].
  unfold splitAtDelimiter. rewrite Ef, Eq. rewrite slice_empty.
  unfold slice_from, slice. rewrite Nat.sub_0_r, substring_all. simpl app.
  destruct (Split s d) as [|x xs] eqn:Es;
    [exfalso; exact (Split_not_nil _ _ Es)|].
  reflexivity.
Qed.

Lemma split_without_quotes_is_Split_witness :
  splitAtDelimiter (String "a" (String ";" (String CR (String "b" ""))))
    (String ";" "") =
  map (fun f => ReplaceAll f CR "")
    (Split (String "a" (String ";" (String CR (String "b" "")))) ";").
Proof.
  apply split_without_quotes_is_Split; reflexivity.
Defined.

Lemma Split_length (s : string) (d : ascii) :
  List.length (Split s d) = S (count_byte d s).
Proof.
  induction s as [|b s IH]; [reflexivity|].
  rewrite Split_cons. simpl count_byte.
  destruct (Ascii.eqb b d); simpl.
  - rewrite IH. reflexivity.
  - destruct (Split s d) as [|x xs]; simpl in *; [discriminate|exact IH].
Qed.

Lemma Split_fields_no_sep (s : string) (d : ascii) :
  Forall (fun f => has_byte d f = false) (Split s d).
Proof.
  induction s as [|b s IH]; [repeat constructor|].
  rewrite Split_cons. destruct (Ascii.eqb b d) eqn:E.
  - constructor; [reflexivity|exact IH].
  - destruct (Split s d) as [|x xs]; simpl.
    + repeat constructor. simpl. rewrite E. reflexivity.
    + inversion IH as [|? ? Hx Hxs]; subst.
      constructor; [|exact Hxs]. simpl. rewrite E. exact Hx.
Qed.

Lemma has_byte_ReplaceAll (b old : ascii) (s : string) :
  has_byte b s = false -> has_byte b (ReplaceAll s old "") = false.
Proof.
  induction s as [|c s IH]; simpl; [reflexivity|].
  intros H. apply Bool.orb_false_iff in H. destruct H as [Hc Hs].
  destruct (Ascii.eqb c old); simpl; [auto|]. rewrite Hc. auto.
Qed.

(** X16: On a line without double quotes and with a one-byte ASCII delimiter,
    there is one field more than there are delimiter bytes in the line,
    and no field contains the delimiter. *)
Theorem split_field_count (s : string) (d : ascii) :
  has_byte quote s = false -> (N_of_ascii d < 128)%N ->
  List.length (splitAtDelimiter s (String d "")) = S (count_byte d s) /\
  Forall (fun f => has_byte d f = false) (splitAtDelimiter s (String d "")).
Proof.
  intros Hq Hd. rewrite (split_without_quotes_is_Split s d Hq Hd). split.
  - rewrite length_map. apply Split_length.
  - apply Forall_map. eapply Forall_impl; [|apply Split_fields_no_sep].
    intros f. apply has_byte_ReplaceAll.
Qed.

Lemma split_field_count_witness :
  List.length (splitAtDelimiter "name,size,,mode" ",") = 4%nat /\
  Forall (fun f => has_byte "," f = false)
    (splitAtDelimiter "name,size,,mode" ",").
Proof.
  apply (split_field_count "name,size,,mode" ","%char); reflexivity.
Defined.

(** ** Quoted fields *)

Lemma in_string_skip (s delim : string) (idx : list nat) :
  (forall i, In i idx -> Ascii.eqb (byte_at s i) quote = false) ->
  forall res beg,
    fold_left (split_step s delim) idx (res, beg, true) = (res, beg, true).
Proof.
  induction idx as [|i idx IH]; intros Hidx res beg; [reflexivity|].
  cbn [fold_left].
  assert (E : split_step s delim (res, beg, true) i = (res, beg, true)).
  { unfold split_step. rewrite Bool.andb_false_r.
    rewrite (Hidx i) by (left; reflexivity). reflexivity. }
  rewrite E. apply IH. intros j Hj. apply Hidx. right. exact Hj.
Qed.

Lemma length_append (a b : string) :
  String.length (a ++ b) = (String.length a + String.length b)%nat.
Proof. induction a as [|c a IH]; simpl; [reflexivity|]. rewrite IH. reflexivity. Qed.

(** X17: A line that opens with a double quote and has no other one, except
    possibly as its last byte, is one field whatever delimiters it holds:
    nothing between the quotes splits, and an unclosed quote takes the
    rest of the line.  (The delimiter is not the double quote itself.) *)
Theorem quoted_line_is_one_field (body delim : string) (closed : bool) :
  has_byte quote body = false -> delim <> String quote "" ->
  let s := String quote (body ++ (if closed then String quote "" else "")) in
  splitAtDelimiter s delim = [ReplaceAll s CR ""].
Proof.
  intros Hb Hd s.
  set (tail := if closed then String quote "" else "") in *.
  assert (Hlen : String.length s =
                 S (String.length body + String.length tail))
    by (unfold s; simpl; rewrite length_append; reflexivity).
  unfold splitAtDelimiter. rewrite Hlen.
  cbn [seq fold_left]. rewrite seq_app, fold_left_app.
  assert (Hneq : String.eqb (string_of_byte quote) delim = false).
  { apply String.eqb_neq. intros E. apply Hd. rewrite <- E. reflexivity. }
  assert (E0 : split_step s delim ([], O, false) O = ([], O, true)).
  { unfold split_step.
    replace (byte_at s 0) with quote by reflexivity.
    rewrite Hneq. reflexivity. }
  rewrite E0.
  rewrite in_string_skip.
  2:{ intros i Hi. apply in_seq in Hi. destruct i as [|j]; [lia|].
      unfold byte_at, s. simpl String.get.
      rewrite <- append_correct1 by lia.
      destruct (get_of_lt_length body j) as [c Hc]; [lia|].
      rewrite Hc. exact (has_byte_get quote body j c Hb Hc). }
  assert (Hfin : exists ins,
            fold_left (split_step s delim)
              (seq (1 + String.length body) (String.length tail))
              ([], O, true) = ([], O, ins)).
  { unfold tail. destruct closed; simpl.
    - destruct (split_step_cases s delim [] O true (S (String.length body)))
        as [(_ & Hc & _)|(_ & ins' & E)]; [discriminate|].
      exists ins'. exact E.
    - exists true. reflexivity. }
  destruct Hfin as [ins E]. rewrite E. simpl app.
  unfold slice_from, slice. rewrite substring_all. reflexivity.
Qed.

Lemma quoted_line_is_one_field_witness :
  splitAtDelimiter (String quote ("Doe, Jane" ++ String quote "")) ","
  = [ReplaceAll (String quote ("Doe, Jane" ++ String quote "")) CR ""].
Proof.
  apply (quoted_line_is_one_field "Doe, Jane" "," true).
  - reflexivity.
  - discriminate.
Defined.

(** ** Reading the table *)

Lemma columns_length (W : string -> Z) (Widths : list Z) (titles : list string) :
  forall i, List.length (columns W Widths i titles) = List.length titles.
Proof.
  induction titles as [|t titles IH]; intros i; simpl; [reflexivity|].
  rewrite IH. reflexivity.
Qed.

Lemma columns_titles_no_CR (W : string -> Z) (Widths : list Z)
  (titles : list string) :
  forall i, Forall (fun c => has_byte CR (fst c) = false)
              (columns W Widths i titles).
Proof.
  induction titles as [|t titles IH]; intros i; simpl; constructor.
  - apply ReplaceAll_removes.
  - apply IH.
Qed.

(** The loop over the lines succeeds exactly when every non-empty line has
    the expected number of fields, and then appends their fields in
    order; otherwise it reports a non-empty line with a different
    number. *)
Lemma read_rows_spec (sep : string) (n : nat) (lines : list string) :
  forall rows,
    match read_rows sep n lines rows with
    | inr out =>
        out = (rows ++ map (fun l => splitAtDelimiter l sep)
                         (filter nonempty lines))%list /\
        Forall (fun l => List.length (splitAtDelimiter l sep) = n)
          (filter nonempty lines)
    | inl e =>
        exists line,
          e = row_has_columns line (List.length (splitAtDelimiter line sep)) n /\
          In line lines /\ line <> "" /\
          List.length (splitAtDelimiter line sep) <> n
    end.
Proof.
  induction lines as [|l lines IH]; intros rows; simpl.
  - rewrite app_nil_r. split; [reflexivity|constructor].
  - change (nonempty l) with (negb (String.eqb l "")).
    destruct (String.eqb_spec l "") as [->|Hne]; simpl.
    + specialize (IH rows).
      destruct (read_rows sep n lines rows) as [e|out].
      * destruct IH as (line & He & Hin & Hl & Hc). exists line. auto.
      * exact IH.
    + destruct (Nat.eqb_spec (List.length (splitAtDelimiter l sep)) n)
        as [Hn|Hn]; simpl.
      * specialize (IH (rows ++ [splitAtDelimiter l sep])%list).
        destruct (read_rows sep n lines (rows ++ [splitAtDelimiter l sep]))
          as [e|out].
        -- destruct IH as (line & He & Hin & Hl & Hc). exists line. auto.
        -- destruct IH as [Hout Hall]. split.
           ++ rewrite Hout, <- app_assoc. reflexivity.
           ++ constructor; assumption.
      * exists l. auto.
Qed.

(** X18: When [Run] reads a table, every row has as many fields as there are
    columns, the rows are the splits of the non-empty data lines in
    order, and neither a title nor a field holds a carriage return. *)
Theorem read_table_rows_fit_columns
  (W : string -> Z) (Columns : list string) (Widths : list Z)
  (sep csv : string) (cols : list Column) (rows : list Row) :
  read_table W Columns Widths sep csv = inr (cols, rows) ->
  Forall (fun r => List.length r = List.length cols) rows /\
  rows = map (fun l => splitAtDelimiter l sep)
           (filter nonempty
              (match Columns with
               | [] => tl (Split csv LF)
               | _ => Split csv LF
               end)) /\
  Forall (fun c => has_byte CR (fst c) = false) cols /\
  Forall (Forall (fun f => has_byte CR f = false)) rows.
Proof.
  unfold read_table, header. intros E.
  set (lines := Split csv LF) in *.
  assert (Hshape : exists titles data,
            cols = columns W Widths O titles /\
            read_rows sep (List.length cols) data [] = inr rows /\
            data = match Columns with [] => tl lines | _ => lines end).
  { destruct Columns as [|c Columns]; simpl in E.
    - destruct lines as [|first rest]; [discriminate|].
      destruct (read_rows sep _ rest []) as [e|out] eqn:Er; [discriminate|].
      inversion E; subst.
      exists (splitAtDelimiter first sep), rest. repeat split. exact Er.
    - destruct (read_rows sep _ lines []) as [e|out] eqn:Er; [discriminate|].
      inversion E; subst.
      exists (c :: Columns), lines. repeat split. exact Er. }
  destruct Hshape as (titles & data & Hcols & Hrows & Hdata).
  pose proof (read_rows_spec sep (List.length cols) data []) as Hspec.
  rewrite Hrows in Hspec. destruct Hspec as [Hout Hall]. simpl in Hout.
  rewrite <- Hdata. subst rows. repeat split.
  - apply Forall_map. exact Hall.
  - rewrite Hcols. apply columns_titles_no_CR.
  - apply Forall_map. apply Forall_forall. intros l _.
    apply split_fields_have_no_CR.
Qed.

Lemma read_table_rows_fit_columns_witness :
  Forall (fun r => List.length r = 2%nat) [["a.txt"; "10"]; ["b.txt"; "20"]] /\
  [["a.txt"; "10"]; ["b.txt"; "20"]] =
    map (fun l => splitAtDelimiter l ",")
      (filter nonempty (tl (Split small_csv LF))) /\
  Forall (fun c => has_byte CR (fst c) = false) [("name", 4); ("size", 9)] /\
  Forall (Forall (fun f => has_byte CR f = false))
    [["a.txt"; "10"]; ["b.txt"; "20"]].
Proof.
  exact (read_table_rows_fit_columns byte_width [] [4; 9] "," small_csv
           [("name", 4); ("size", 9)] [["a.txt"; "10"]; ["b.txt"; "20"]]
           eq_refl).
Defined.

(** X19: When [Run] fails while reading the text, the error names a non-empty
    line of the text whose number of fields differs from the number of
    columns; the error [no columns provided] is never built. *)
Theorem read_table_error_names_bad_line
  (W : string -> Z) (Columns : list string) (Widths : list Z)
  (sep csv : string) (e : error) :
  read_table W Columns Widths sep csv = inl e ->
  exists line expected,
    e = row_has_columns line (List.length (splitAtDelimiter line sep)) expected /\
    In line (Split csv LF) /\ line <> "" /\
    List.length (splitAtDelimiter line sep) <> expected /\
    expected = match Columns with
               | [] => List.length (splitAtDelimiter (hd "" (Split csv LF)) sep)
               | _ => List.length Columns
               end.
Proof.
  unfold read_table, header. intros E.
  pose proof (Split_not_nil csv LF) as Hne.
  destruct (Split csv LF) as [|first rest] eqn:Es; [congruence|].
  destruct Columns as [|c Columns]; cbn [List.length Nat.leb] in E.
  - pose proof (read_rows_spec sep
                  (List.length (columns W Widths O (splitAtDelimiter first sep)))
                  rest []) as Hspec.
    destruct (read_rows sep _ rest []) as [e'|out]; [|discriminate].
    injection E as Ee. subst e'. destruct Hspec as (line & He & Hin & Hl & Hc).
    rewrite columns_length in He, Hc.
    exists line, (List.length (splitAtDelimiter first sep)).
    simpl. auto 6.
  - pose proof (read_rows_spec sep
                  (List.length (columns W Widths O (c :: Columns)))
                  (first :: rest) []) as Hspec.
    destruct (read_rows sep _ (first :: rest) []) as [e'|out]; [|discriminate].
    injection E as Ee. subst e'. destruct Hspec as (line & He & Hin & Hl & Hc).
    rewrite columns_length in He, Hc.
    exists line, (List.length (c :: Columns)). auto 6.
Qed.

Lemma read_table_error_names_bad_line_witness :
  exists line expected,
    row_has_columns "b,c" 2 1 =
      row_has_columns line (List.length (splitAtDelimiter line ",")) expected /\
    In line (Split (String "a" (String LF "b,c")) LF) /\ line <> "" /\
    List.length (splitAtDelimiter line ",") <> expected /\
    expected = List.length (splitAtDelimiter
                 (hd "" (Split (String "a" (String LF "b,c")) LF)) ",").
Proof.
  exact (read_table_error_names_bad_line byte_width [] [] ","
           (String "a" (String LF "b,c")) (row_has_columns "b,c" 2 1) eq_refl).
Defined.

(* ===================================================================== *)
(** * Paths: ascending undoes descending *)
(* ===================================================================== *)

Import names.

(** *** Elements of a path *)

Lemma elements_not_nil (s : string) : filepath.elements s <> [].
Proof.
  destruct s as [|c s]; simpl; [discriminate|].
  destruct (Ascii.eqb c filepath.Separator); [discriminate|].
  destruct (filepath.elements s); discriminate.
Qed.

Lemma elements_no_sep (n : string) : has_byte filepath.Separator n = false -> filepath.elements n = [n].
Proof.
  induction n as [|c n IH]; simpl; [reflexivity|].
  intros H. apply Bool.orb_false_iff in H. destruct H as [Hc Hn].
  rewrite Hc, (IH Hn). reflexivity.
Qed.

Lemma elements_app_sep (a b : string) :
  filepath.elements (a ++ String filepath.Separator b) =
  (filepath.elements a ++ filepath.elements b)%list.
Proof.
  induction a as [|c a IH]; cbn [append filepath.elements].
  - rewrite Ascii.eqb_refl. reflexivity.
  - rewrite IH. destruct (Ascii.eqb c filepath.Separator); [reflexivity|].
    destruct (filepath.elements a) as [|x xs] eqn:E;
      [exfalso; exact (elements_not_nil a E)|reflexivity].
Qed.

Lemma elements_have_no_sep (s : string) :
  Forall (fun e => has_byte filepath.Separator e = false) (filepath.elements s).
Proof.
  induction s as [|c s IH]; simpl; [repeat constructor|].
  destruct (Ascii.eqb c filepath.Separator) eqn:E.
  - constructor; [reflexivity|exact IH].
  - destruct (filepath.elements s) as [|x xs]; [repeat constructor; simpl; rewrite E; reflexivity|].
    inversion IH; subst. constructor; [|assumption].
    simpl. rewrite E. assumption.
Qed.

Lemma elements_concat (l : list string) :
  l <> [] -> Forall (fun e => has_byte filepath.Separator e = false) l ->
  filepath.elements (String.concat "/" l) = l.
Proof.
  induction l as [|x l IH]; [congruence|]. intros _ Hall.
  inversion Hall as [|? ? Hx Hl]; subst.
  destruct l as [|y l].
  - simpl. apply elements_no_sep. exact Hx.
  - change (String.concat "/" (x :: y :: l))
      with (x ++ String filepath.Separator (String.concat "/" (y :: l))).
    rewrite elements_app_sep, (elements_no_sep x Hx), IH;
      [reflexivity|discriminate|exact Hl].
Qed.

(** *** The state of [Clean]'s loop *)

Lemma plain_name_inv (e : string) :
  plain_name e = true ->
  String.eqb e "" = false /\ String.eqb e "." = false /\
  String.eqb e ".." = false /\ has_byte filepath.Separator e = false.
Proof.
  unfold plain_name. rewrite !Bool.andb_true_iff, !Bool.negb_true_iff. tauto.
Qed.

Lemma clean_step_plain (r : bool) (out : list string) (dd : nat) (e : string) :
  plain_name e = true ->
  filepath.clean_step r (out, dd) e = (e :: out, dd).
Proof.
  intros H. apply plain_name_inv in H. destruct H as (H1 & H2 & H3 & _).
  unfold filepath.clean_step. rewrite H1, H2, H3. reflexivity.
Qed.

Lemma clean_step_state (r : bool) (st : list string * nat) (e : string) :
  has_byte filepath.Separator e = false -> clean_state r st -> clean_state r (filepath.clean_step r st e).
Proof.
  intros He (normal & Hout & Hn & Hr). destruct st as [out dd].
  simpl in Hout, Hr. subst out. unfold filepath.clean_step.
  destruct (String.eqb e "") eqn:E1; simpl; [exists normal; auto|].
  destruct (String.eqb e ".") eqn:E2; simpl; [exists normal; auto|].
  destruct (String.eqb e "..") eqn:E3.
  - rewrite length_app, repeat_length.
    destruct normal as [|x normal]; simpl.
    + rewrite Nat.ltb_irrefl. destruct r.
      * exists []. simpl. auto.
      * exists []. simpl. repeat split; [constructor|discriminate].
    + replace (dd <? S (List.length normal + dd))%nat with true
        by (symmetry; apply Nat.ltb_lt; lia).
      exists normal. simpl. inversion Hn; subst. auto.
  - exists (e :: normal). simpl. repeat split; [|exact Hr].
    constructor; [|exact Hn]. unfold plain_name.
    rewrite E1, E2, E3, He. reflexivity.
Qed.

Lemma clean_fold_state (r : bool) (es : list string) :
  Forall (fun e => has_byte filepath.Separator e = false) es ->
  forall st, clean_state r st ->
             clean_state r (fold_left (filepath.clean_step r) es st).
Proof.
  induction 1 as [|e es He _ IH]; intros st Hst; [exact Hst|].
  simpl. apply IH. apply clean_step_state; assumption.
Qed.

Lemma clean_fold_dotdots (k : nat) :
  forall j, fold_left (filepath.clean_step false) (repeat ".." k)
              (repeat ".." j, j) = (repeat ".." (k + j), (k + j)%nat).
Proof.
  induction k as [|k IH]; intros j; [reflexivity|].
  simpl repeat. cbn [fold_left].
  assert (E : filepath.clean_step false (repeat ".." j, j) ".."
              = (repeat ".." (S j), S j)).
  { unfold filepath.clean_step. simpl String.eqb. simpl orb. cbv iota.
    rewrite repeat_length, Nat.ltb_irrefl. reflexivity. }
  rewrite E, IH. replace (k + S j)%nat with (S k + j)%nat by lia. reflexivity.
Qed.

Lemma clean_fold_plain (r : bool) (l : list string) :
  Forall (fun e => plain_name e = true) l ->
  forall out dd,
    fold_left (filepath.clean_step r) l (out, dd) = ((rev l ++ out)%list, dd).
Proof.
  induction 1 as [|e l He _ IH]; intros out dd; [reflexivity|].
  cbn [fold_left]. rewrite (clean_step_plain r out dd e He), IH.
  simpl. rewrite <- app_assoc. reflexivity.
Qed.

(** Cleaning the elements already written gives them back. *)
Lemma clean_fold_again (r : bool) (out : list string) (dd : nat) :
  clean_state r (out, dd) ->
  fold_left (filepath.clean_step r) (rev out) ([], O) = (out, dd).
Proof.
  intros (normal & Hout & Hn & Hr). simpl in Hout, Hr. subst out.
  rewrite rev_app_distr, rev_repeat, fold_left_app.
  assert (E : fold_left (filepath.clean_step r) (repeat ".." dd) ([], O)
              = (repeat ".." dd, dd)).
  { destruct r.
    - rewrite (Hr eq_refl). reflexivity.
    - pose proof (clean_fold_dotdots dd O) as H. simpl in H.
      rewrite Nat.add_0_r in H. exact H. }
  rewrite E, clean_fold_plain by (apply Forall_rev; exact Hn).
  rewrite rev_involutive. reflexivity.
Qed.

(** *** [Clean], [Join] and [Dir] *)

Lemma Clean_eq (p : string) (r : bool) (out : list string) (dd : nat) :
  p <> "" -> filepath.rooted p = r ->
  fold_left (filepath.clean_step r) (filepath.elements p) ([], O) = (out, dd) ->
  filepath.Clean p =
  let body := String.concat "/" (rev out) in
  if r then String filepath.Separator body
  else if String.eqb body "" then "." else body.
Proof.
  intros Hp Hr Hf. unfold filepath.Clean.
  destruct (String.eqb_spec p ""); [contradiction|].
  rewrite Hr, Hf. reflexivity.
Qed.

Lemma clean_state_init (r : bool) : clean_state r ([], O).
Proof. exists []. simpl. repeat split. constructor. Qed.

Lemma clean_state_no_sep (r : bool) (out : list string) (dd : nat) :
  clean_state r (out, dd) ->
  Forall (fun e => has_byte filepath.Separator e = false /\ e <> "") out.
Proof.
  intros (normal & Hout & Hn & _). simpl in Hout. subst out.
  apply Forall_app. split.
  - eapply Forall_impl; [|exact Hn]. intros e He.
    apply plain_name_inv in He. destruct He as (H1 & _ & _ & H4).
    split; [exact H4|]. apply String.eqb_neq. exact H1.
  - apply Forall_forall. intros e He. apply repeat_spec in He. subst e.
    split; [reflexivity|discriminate].
Qed.

Lemma concat_snoc (l : list string) (n : string) :
  String.concat "/" (l ++ [n]) =
  match l with
  | [] => n
  | _ => String.concat "/" l ++ String filepath.Separator n
  end.
Proof.
  induction l as [|x l IH]; [reflexivity|].
  destruct l as [|y l]; [reflexivity|].
  change (String.concat "/" ((x :: y :: l) ++ [n]))
    with (x ++ String filepath.Separator (String.concat "/" ((y :: l) ++ [n]))).
  rewrite IH.
  change (String.concat "/" (x :: y :: l))
    with (x ++ String filepath.Separator (String.concat "/" (y :: l))).
  rewrite append_assoc. reflexivity.
Qed.

Lemma upto_no_sep (n : string) :
  has_byte filepath.Separator n = false -> filepath.upto_last_separator n = "".
Proof.
  induction n as [|c n IH]; simpl; [reflexivity|].
  intros H. apply Bool.orb_false_iff in H. destruct H as [Hc Hn].
  rewrite (IH Hn), Hc. reflexivity.
Qed.

Lemma upto_app_sep (a n : string) :
  has_byte filepath.Separator n = false ->
  filepath.upto_last_separator (a ++ String filepath.Separator n) =
  a ++ String filepath.Separator "".
Proof.
  intros Hn. induction a as [|c a IH]; cbn [append filepath.upto_last_separator].
  - rewrite (upto_no_sep n Hn), Ascii.eqb_refl. reflexivity.
  - rewrite IH. destruct a; reflexivity.
Qed.

Lemma rooted_app (a b : string) :
  a <> "" -> filepath.rooted (a ++ b) = filepath.rooted a.
Proof. destruct a; [congruence|reflexivity]. Qed.

Lemma rooted_concat (x : string) (l : list string) :
  has_byte filepath.Separator x = false -> x <> "" ->
  filepath.rooted (String.concat "/" (x :: l)) = false.
Proof.
  intros Hx Hne. destruct x as [|c x]; [congruence|].
  simpl in Hx. apply Bool.orb_false_iff in Hx. destruct Hx as [Hc _].
  destruct l; simpl; exact Hc.
Qed.

Lemma clean_step_empty (r : bool) (st : list string * nat) :
  filepath.clean_step r st "" = st.
Proof. destruct st. reflexivity. Qed.

(** The parent of a path joined with a plain name is the cleaned path. *)
Lemma Dir_Join_plain (p n : string) :
  p <> "" -> plain_name n = true ->
  filepath.Dir (filepath.Join [p; n]) = filepath.Clean p.
Proof.
  intros Hp Hn.
  destruct (plain_name_inv n Hn) as (Hn1 & _ & _ & Hn4).
  apply String.eqb_neq in Hn1.
  set (r := filepath.rooted p).
  destruct (fold_left (filepath.clean_step r) (filepath.elements p) ([], O))
    as [out dd] eqn:Hfold.
  assert (Hst : clean_state r (out, dd)).
  { rewrite <- Hfold. apply clean_fold_state;
      [apply elements_have_no_sep|apply clean_state_init]. }
  rewrite (Clean_eq p r out dd Hp eq_refl Hfold). cbv zeta.
  (* the joined path *)
  assert (HJ : filepath.Join [p; n] =
               let body := String.concat "/" (rev out ++ [n]) in
               if r then String filepath.Separator body else body).
  { unfold filepath.Join. destruct (String.eqb_spec p ""); [contradiction|].
    change (String.concat "/" [p; n]) with (p ++ String filepath.Separator n).
    rewrite (Clean_eq (p ++ String filepath.Separator n) r (n :: out) dd).
    - cbv zeta. simpl rev. destruct r; [reflexivity|].
      destruct (String.eqb_spec (String.concat "/" (rev out ++ [n])) "")
        as [E|_]; [|reflexivity].
      exfalso. rewrite concat_snoc in E.
      destruct (rev out); [contradiction|].
      destruct (String.concat "/" (s :: l)); discriminate.
    - destruct p; [congruence|discriminate].
    - apply rooted_app. exact Hp.
    - rewrite elements_app_sep, fold_left_app, Hfold.
      rewrite (elements_no_sep n Hn4). simpl.
      apply clean_step_plain. exact Hn. }
  rewrite HJ. cbv zeta. unfold filepath.Dir. rewrite concat_snoc.
  pose proof (clean_state_no_sep r out dd Hst) as Hns.
  apply Forall_rev in Hns.
  destruct (rev out) as [|x l] eqn:Hrev.
  - (* nothing written: the path was [/] or [.] *)
    destruct r.
    + change (String filepath.Separator n)
        with ("" ++ String filepath.Separator n).
      rewrite (upto_app_sep "" n Hn4). reflexivity.
    + rewrite (upto_no_sep n Hn4). reflexivity.
  - set (B := String.concat "/" (x :: l)).
    inversion Hns as [|? ? [Hx Hxne] Hl]; subst.
    assert (HeB : filepath.elements B = (x :: l)).
    { apply elements_concat; [discriminate|].
      constructor; [exact Hx|].
      eapply Forall_impl; [|exact Hl]. intros e [He _]. exact He. }
    assert (Hagain : fold_left (filepath.clean_step r) (x :: l) ([], O)
                     = (out, dd)).
    { rewrite <- Hrev. apply clean_fold_again. exact Hst. }
    destruct r.
    + change (String filepath.Separator (B ++ String filepath.Separator n))
        with ((String filepath.Separator B) ++ String filepath.Separator n).
      rewrite (upto_app_sep _ n Hn4).
      rewrite (Clean_eq _ true out dd);
        [cbv zeta; rewrite Hrev; reflexivity|discriminate|reflexivity|].
      change (String filepath.Separator B ++ String filepath.Separator "")
        with (String filepath.Separator (B ++ String filepath.Separator "")).
      cbn [filepath.elements]. rewrite Ascii.eqb_refl.
      rewrite elements_app_sep, HeB. cbn [filepath.elements].
      cbn [fold_left]. rewrite clean_step_empty.
      rewrite fold_left_app, Hagain. reflexivity.
    + rewrite (upto_app_sep _ n Hn4).
      rewrite (Clean_eq _ false out dd);
        [cbv zeta; rewrite Hrev; reflexivity| | |].
      * destruct B; discriminate.
      * rewrite rooted_app.
        -- apply rooted_concat; assumption.
        -- unfold B. destruct x; [congruence|].
           destruct l; discriminate.
      * rewrite elements_app_sep, HeB. cbn [filepath.elements].
        rewrite fold_left_app, Hagain. reflexivity.
Qed.

(** A path written by [Clean]'s loop is its own cleaning. *)
Lemma Clean_written (r : bool) (out : list string) (dd : nat) :
  clean_state r (out, dd) -> out <> [] ->
  let body := String.concat "/" (rev out) in
  let q := if r then String filepath.Separator body else body in
  filepath.Clean q = q.
Proof.
  intros Hst Hne body q.
  pose proof (clean_state_no_sep r out dd Hst) as Hns.
  apply Forall_rev in Hns.
  destruct (rev out) as [|x l] eqn:Hrev.
  { exfalso. apply Hne. rewrite <- (rev_involutive out), Hrev. reflexivity. }
  inversion Hns as [|? ? [Hx Hxne] Hl]; subst.
  assert (HeB : filepath.elements body = (x :: l)).
  { apply elements_concat; [discriminate|].
    constructor; [exact Hx|].
    eapply Forall_impl; [|exact Hl]. intros e [He _]. exact He. }
  assert (Hagain : fold_left (filepath.clean_step r) (x :: l) ([], O)
                   = (out, dd)).
  { rewrite <- Hrev. apply clean_fold_again. exact Hst. }
  assert (Hbody : body <> "").
  { unfold body. destruct x; [congruence|]. destruct l; discriminate. }
  unfold q. destruct r.
  - rewrite (Clean_eq _ true out dd);
      [cbv zeta; rewrite Hrev; reflexivity|discriminate|reflexivity|].
    cbn [filepath.elements]. rewrite Ascii.eqb_refl.
    rewrite HeB. cbn [fold_left]. rewrite clean_step_empty. exact Hagain.
  - rewrite (Clean_eq _ false out dd).
    + cbv zeta. rewrite Hrev. fold body.
      destruct (String.eqb_spec body ""); [contradiction|reflexivity].
    + exact Hbody.
    + apply rooted_concat; assumption.
    + rewrite HeB. exact Hagain.
Qed.

(** Joining a plain name to a path gives a clean, non-empty path. *)
Lemma Join_plain_clean (p n : string) :
  p <> "" -> plain_name n = true ->
  filepath.Clean (filepath.Join [p; n]) = filepath.Join [p; n] /\
  filepath.Join [p; n] <> "".
Proof.
  intros Hp Hn.
  destruct (plain_name_inv n Hn) as (_ & _ & _ & Hn4).
  set (r := filepath.rooted p).
  destruct (fold_left (filepath.clean_step r) (filepath.elements p) ([], O))
    as [out dd] eqn:Hfold.
  assert (Hst : clean_state r (n :: out, dd)).
  { rewrite <- (clean_step_plain r out dd n Hn), <- Hfold.
    apply clean_step_state; [exact Hn4|].
    apply clean_fold_state; [apply elements_have_no_sep|apply clean_state_init]. }
  assert (HJ : filepath.Join [p; n] =
               let body := String.concat "/" (rev (n :: out)) in
               if r then String filepath.Separator body else body).
  { unfold filepath.Join. destruct (String.eqb_spec p ""); [contradiction|].
    change (String.concat "/" [p; n]) with (p ++ String filepath.Separator n).
    rewrite (Clean_eq (p ++ String filepath.Separator n) r (n :: out) dd).
    - cbv zeta. destruct r; [reflexivity|].
      destruct (String.eqb_spec (String.concat "/" (rev (n :: out))) "")
        as [E|_]; [|reflexivity].
      exfalso. simpl rev in E. rewrite concat_snoc in E.
      apply plain_name_inv in Hn. destruct Hn as (Hn1 & _).
      apply String.eqb_neq in Hn1.
      destruct (rev out); [contradiction|].
      destruct (String.concat "/" (s :: l)); discriminate.
    - destruct p; [congruence|discriminate].
    - apply rooted_app. exact Hp.
    - rewrite elements_app_sep, fold_left_app, Hfold.
      rewrite (elements_no_sep n Hn4). simpl.
      apply clean_step_plain. exact Hn. }
  rewrite HJ. split.
  - apply (Clean_written r (n :: out) dd Hst). discriminate.
  - cbv zeta. destruct r; [discriminate|].
    simpl rev. rewrite concat_snoc.
    apply plain_name_inv in Hn. destruct Hn as (Hn1 & _).
    apply String.eqb_neq in Hn1.
    destruct (rev out); [exact Hn1|].
    destruct (String.concat "/" (s :: l)); discriminate.
Qed.

Lemma Clean_not_empty (p : string) : filepath.Clean p <> "".
Proof.
  unfold filepath.Clean. destruct (String.eqb p ""); [discriminate|].
  destruct (fold_left _ _ _) as [out dd].
  destruct (filepath.rooted p); [discriminate|].
  destruct (String.eqb_spec (String.concat "/" (rev out)) "");
    [discriminate|assumption].
Qed.

(** X4: With a plain-named directory under the cursor and a non-empty path,
    a descend key followed by an ascend key leaves the picker in the
    directory it started from: the path is the cleaned starting path, and
    that is the directory the ascend asks to load. *)
Theorem descend_then_ascend_restores_path
  (m : model) (f : DirEntry) (kd ka : string) :
  at_cursor m f -> IsDir f = true -> plain_name (Name f) = true ->
  path m <> "" ->
  In kd ["l"; "right"; "enter"] -> In ka ["backspace"; "h"; "left"] ->
  exists m1 m2,
    Update m (KeyMsg kd) =
      Ok (m1, readDir (filepath.Join [path m; Name f])) /\
    Update m1 (KeyMsg ka) = Ok (m2, readDir (filepath.Clean (path m))) /\
    path m2 = filepath.Clean (path m).
Proof.
  intros Hf Hd Hn Hp Hkd Hka.
  exists (descend m f). rewrite (Update_open m f kd Hkd Hf), Hd.
  destruct (Update_back_cases (descend m f) ka Hka)
    as [[Es _]|[(s & ss & mn & mns & mx & mxs & Es & Emn & Emx & Eu)|(_ & He & _)]].
  - discriminate.
  - eexists. split; [reflexivity|]. rewrite Eu.
    change (path (descend m f)) with (filepath.Join [path m; Name f]).
    rewrite (Dir_Join_plain (path m) (Name f) Hp Hn).
    split; reflexivity.
  - destruct He; discriminate.
Qed.

Lemma descend_then_ascend_restores_path_witness :
  exists m1 m2,
    Update on_subdir (KeyMsg "l") = Ok (m1, readDir "/srv/c") /\
    Update m1 (KeyMsg "h") = Ok (m2, readDir "/srv") /\
    path m2 = "/srv".
Proof.
  apply (descend_then_ascend_restores_path on_subdir (entry "c" true) "l" "h");
    try reflexivity; try discriminate; simpl; auto.
Defined.

(** X5: A balanced navigation, in which every descend into a plain-named
    directory is matched by a later ascend, with loads, resizes, jumps and
    moves anywhere in between, does not panic, and ends in the directory it
    started from and with the history it started with (the starting path
    being clean). *)
Theorem excursion_returns (m : model) (msgs : list Msg) :
  session.excursion m msgs ->
  filepath.Clean (path m) = path m ->
  exists m',
    run m msgs = Ok m' /\
    path m' = path m /\
    (selectedStack m', minStack m', maxStack m') =
      (selectedStack m, minStack m, maxStack m).
Proof.
  induction 1 as
    [m
    |m msg rest Hv _ IH
    |m f kd ka inner rest Hkd Hf Hd Hn _ IHin Hka _ IHrest];
    intros Hclean.
  - exists m. repeat split.
  - destruct (view_msg_keeps_history m msg Hv)
      as (m1 & E & H1 & H2 & H3 & Hp & _).
    destruct (IH m1 CmdNil E) as (m' & Hr & Hp' & Hs);
      [rewrite Hp; exact Hclean|].
    exists m'. cbn [run]. rewrite E. cbn [bind].
    split; [exact Hr|]. split; [congruence|].
    rewrite Hs, H1, H2, H3. reflexivity.
  - assert (Hne : path m <> "")
      by (rewrite <- Hclean; apply Clean_not_empty).
    destruct (Join_plain_clean (path m) (Name f) Hne Hn) as [HJc _].
    destruct (IHin HJc) as (m2 & Hrin & Hpin & Hsin).
    destruct (Update_back_cases m2 ka Hka)
      as [[Es _]|[(s & ss & mn & mns & mx & mxs & Es & Emn & Emx & Eu)|(_ & He & _)]].
    + exfalso. inversion Hsin as [[H1 H2 H3]]. rewrite Es in H1.
      discriminate.
    + inversion Hsin as [[H1 H2 H3]].
      rewrite Es in H1. rewrite Emn in H2. rewrite Emx in H3.
      simpl in H1, H2, H3. inversion H1. inversion H2. inversion H3. subst.
      assert (Hp3 : filepath.Dir (path m2) = path m).
      { rewrite Hpin.
        change (path (descend m f)) with (filepath.Join [path m; Name f]).
        rewrite (Dir_Join_plain (path m) (Name f) Hne Hn). exact Hclean. }
      destruct (IHrest m2 _ _ Hrin Eu) as (m' & Hrr & Hpr & Hsr).
      { simpl. rewrite Hp3. exact Hclean. }
      simpl in Hpr, Hsr. exists m'. split.
      * cbn [run]. rewrite (Update_open m f kd Hkd Hf), Hd. cbn [bind].
        rewrite run_app, Hrin. cbn [bind run]. rewrite Eu. cbn [bind].
        exact Hrr.
      * split; [rewrite Hpr; exact Hp3|exact Hsr].
    + exfalso. inversion Hsin as [[H1 H2 H3]].
      destruct He as [He|He]; [rewrite He in H2|rewrite He in H3];
        discriminate.
Qed.

Lemma excursion_returns_witness :
  exists m',
    run on_subdir two_levels = Ok m' /\
    path m' = path on_subdir /\
    (selectedStack m', minStack m', maxStack m') =
      (selectedStack on_subdir, minStack on_subdir, maxStack on_subdir).
Proof.
  apply (excursion_returns on_subdir two_levels); [|reflexivity].
  apply session.exc_visit with
    (f := entry "c" true) (kd := "l") (ka := "backspace") (rest := [])
    (inner := [readDirMsg [entry "d" true; entry "e.txt" false];
               KeyMsg "j"; KeyMsg "k"; KeyMsg "enter"; readDirMsg [];
               KeyMsg "h"]).
  - simpl; tauto.
  - reflexivity.
  - reflexivity.
  - reflexivity.
  - apply session.exc_view; [exact I|].
    intros m1 c E. vm_compute in E. inversion E; subst; clear E.
    apply session.exc_view; [simpl; tauto|].
    intros m1 c E. vm_compute in E. inversion E; subst; clear E.
    apply session.exc_view; [simpl; tauto|].
    intros m1 c E. vm_compute in E. inversion E; subst; clear E.
    apply session.exc_visit with
      (f := entry "d" true) (kd := "enter") (ka := "h") (rest := [])
      (inner := [readDirMsg []]).
    + simpl; tauto.
    + vm_compute. reflexivity.
    + reflexivity.
    + reflexivity.
    + apply session.exc_view; [exact I|].
      intros m1 c E. apply session.exc_done.
    + simpl; tauto.
    + intros m2 m3 c _ _. apply session.exc_done.
  - simpl; tauto.
  - intros m2 m3 c _ _. apply session.exc_done.
Defined.
